(** * Vision-V: WebView page controller, weather rotation, vehicle doors

    A shallow embedding of the repository's code:

    - the [Page] class of [src/core/client/startup.ts], wrapping an
      [IPage] descriptor: its constructor, [open] and [close],
    - the default weather system of
      [src/core/server/systems/defaults/weather.ts],
    - the server vehicle helpers: [toggleDoor], [toggleLock],
      [toggleEngine], [isLocked] and [update],
    - the clothing recipe of
      [src/core/server/systems/defaults/clothingCrafting.ts].

    Host-runtime calls (alt:V natives, the WebView subsystem, the pause
    menu, the gameplay camera) are outside the repository slice; they are
    recorded, in program order, in a trace of [Call]s.  A read of an
    absent JavaScript property is [None]; a property read on [undefined]
    raises [TypeError]. *)

From Stdlib Require Import List String ZArith Bool Lia Permutation.
Import ListNotations.
Local Open Scope string_scope.
Local Open Scope list_scope.

(** ** JavaScript values used by the three files *)

Module Js.

(** An optional boolean property: absent ([undefined]) or a boolean. *)
Definition optbool := option bool.

(** [if (x)] on an optional boolean. *)
Definition truthy (x : optbool) : bool :=
  match x with
  | Some true => true
  | _ => false
  end.

(** [x === false] on an optional boolean. *)
Definition isFalse (x : optbool) : bool :=
  match x with
  | Some false => true
  | _ => false
  end.

(** [x === 'lit'] on an optional string property. *)
Definition strictEq (x : option string) (lit : string) : bool :=
  match x with
  | Some s => String.eqb s lit
  | None => false
  end.

End Js.

(** ** The page controller *)

Module Page.
Import Js.

(** *** Descriptor ([IPage]) *)

(** A user-supplied callback; only its identity matters here. *)
Inductive AnyCallback : Type :=
| UserCallback (id : nat).

Record Callbacks : Type := mkCallbacks {
  cb_onReady : AnyCallback;
  cb_onClose : AnyCallback
}.

Record OnOpen : Type := mkOnOpen {
  focus : optbool;
  showCursor : optbool;
  hideHud : optbool;
  hideOverlays : optbool;
  disableControls : option string;
  disablePauseMenu : optbool;
  blurBackground : optbool;
  setIsMenuOpenToTrue : optbool
}.

Record OnClose : Type := mkOnClose {
  unfocus : optbool;
  hideCursor : optbool;
  showHud : optbool;
  showOverlays : optbool;
  enableControls : optbool;
  enablePauseMenu : optbool;
  unblurBackground : optbool;
  setIsMenuOpenToFalse : optbool
}.

Record Options : Type := mkOptions {
  disableEscapeKey : optbool;
  onOpen : option OnOpen;
  onClose : option OnClose
}.

(** [BaseKeyInfo & { useSameKeyToClose?: boolean }]; of [BaseKeyInfo]
    only the key code is kept, [open] and [close] read nothing else. *)
Record Keybind : Type := mkKeybind {
  key : Z;
  useSameKeyToClose : optbool
}.

Record IPage : Type := mkIPage {
  name : string;
  callbacks : Callbacks;
  options : option Options;
  keybind : option Keybind
}.

(** *** Host interface *)

(** [this.close.bind(this)]: the closure handed to the WebView, kept as
    the page it is bound to. *)
Inductive Handler : Type :=
| CloseBoundTo (page : IPage).

(** Calls into the host, and writes to host-owned properties. *)
Inductive Call : Type :=
| webview_focus
| webview_unfocus
| webview_showOverlays (value : bool) (doNotUpdate : option bool)
| webview_showCursor (value : bool)
| webview_open (names : list string) (hideOverlays : bool) (closeOnEscape : Handler)
| webview_close (names : list string) (showOverlays : bool)
| alt_toggleGameControls (state : bool)
| GameplayCamera_disable
| GameplayCamera_enable
| PauseMenu_disable
| PauseMenu_enable
| native_displayRadar (toggle : bool)
| native_displayHud (toggle : bool)
| native_triggerScreenblurFadeIn (ms : Z)
| native_triggerScreenblurFadeOut (ms : Z)
| set_local_isMenuOpen (value : bool)
| invoke (cb : AnyCallback).

(** What the host answers when asked, at the time of the call. *)
Record Host : Type := mkHost {
  isPageOpen : string -> bool;   (* AthenaClient.webview.isPageOpen *)
  isAnyMenuOpen : bool;          (* isAnyMenuOpen() *)
  isConsoleOpen : bool;          (* alt.isConsoleOpen() *)
  isMenuOpen : bool              (* alt.isMenuOpen() *)
}.

(** *** The monad of a method body *)

Inductive Fault : Type :=
| TypeError.

Inductive Result (A : Type) : Type :=
| Ok (a : A)
| Throw (e : Fault).
Arguments Ok {A} a.
Arguments Throw {A} e.

(** A computation reads the host, issues calls in order, and either
    returns or throws. *)
Definition M (A : Type) : Type := Host -> Result A * list Call.

Definition ret {A} (a : A) : M A := fun _ => (Ok a, []).

Definition throw {A} (e : Fault) : M A := fun _ => (Throw e, []).

Definition bind {A B} (m : M A) (k : A -> M B) : M B :=
  fun h =>
    match m h with
    | (Ok a, t1) => let (r, t2) := k a h in (r, t1 ++ t2)
    | (Throw e, t1) => (Throw e, t1)
    end.

Definition call (c : Call) : M unit := fun _ => (Ok tt, [c]).

Definition ask {A} (f : Host -> A) : M A := fun h => (Ok (f h), []).

(** [if (b) { body }] *)
Definition when (b : bool) (body : M unit) : M unit :=
  if b then body else ret tt.

Declare Scope page_scope.
Delimit Scope page_scope with page.
Notation "x <- m ;; k" := (bind m (fun x => k))
  (at level 61, m at next level, right associativity) : page_scope.
Notation "m ;; k" := (bind m (fun _ => k))
  (at level 61, right associativity) : page_scope.
Local Open Scope page_scope.

Definition result {A} (r : Result A * list Call) : Result A := fst r.
Definition trace {A} (r : Result A * list Call) : list Call := snd r.

(** *** Property reads *)

(** [this.info.options.onOpen]: reading [onOpen] of an absent [options]
    throws; the value may itself be [undefined]. *)
Definition read_onOpen (d : IPage) : M (option OnOpen) :=
  match options d with
  | Some o => ret (onOpen o)
  | None => throw TypeError
  end.

Definition read_onClose (d : IPage) : M (option OnClose) :=
  match options d with
  | Some o => ret (onClose o)
  | None => throw TypeError
  end.

(** [this.info.options.onOpen.f] for a field [f]. *)
Definition onOpen_get {A} (d : IPage) (f : OnOpen -> A) : M A :=
  oo <- read_onOpen d ;;
  match oo with
  | Some x => ret (f x)
  | None => throw TypeError
  end.

(** [this.info.options.onClose.f] for a field [f]. *)
Definition onClose_get {A} (d : IPage) (f : OnClose -> A) : M A :=
  oc <- read_onClose d ;;
  match oc with
  | Some x => ret (f x)
  | None => throw TypeError
  end.

(** *** [Page.close] *)

Definition close (d : IPage) (arg : option bool) : M unit :=
  (* close(isManuallyTriggered = false) *)
  let isManuallyTriggered := match arg with Some b => b | None => false end in
  so <- onClose_get d showOverlays ;;
  let showOverlays := if isFalse so then false else true in
  when isManuallyTriggered
    (call (webview_close [name d] showOverlays)) ;;
  when (negb isManuallyTriggered && showOverlays)
    (call (webview_showOverlays true (Some false))) ;;
  b <- onClose_get d hideCursor ;;
  when (truthy b) (call (webview_showCursor false)) ;;
  b <- onClose_get d unfocus ;;
  when (truthy b) (call webview_unfocus) ;;
  b <- onClose_get d unblurBackground ;;
  when (truthy b) (call (native_triggerScreenblurFadeOut 250)) ;;
  b <- onClose_get d setIsMenuOpenToFalse ;;
  when (truthy b) (call (set_local_isMenuOpen false)) ;;
  b <- onClose_get d showHud ;;
  when (truthy b)
    (call (native_displayRadar true) ;; call (native_displayHud true)) ;;
  b <- onClose_get d enablePauseMenu ;;
  when (truthy b) (call PauseMenu_enable) ;;
  b <- onClose_get d enableControls ;;
  when (truthy b)
    (call (alt_toggleGameControls true) ;; call GameplayCamera_enable) ;;
  call (invoke (cb_onClose (callbacks d))).

(** *** [Page.open] *)

(** The [switch] on [onOpen.disableControls]. *)
Definition dispatch_disableControls (v : option string) : M unit :=
  if strictEq v "all" then call (alt_toggleGameControls false)
  else if strictEq v "camera" then call GameplayCamera_disable
  else ret tt.

(** From the first read of [options.onOpen] to the end of [open]. *)
Definition open_effects (d : IPage) : M bool :=
  b <- onOpen_get d focus ;;
  when (truthy b) (call webview_focus) ;;
  ho <- onOpen_get d hideOverlays ;;
  let hideOverlays := if isFalse ho then false else true in
  b <- onOpen_get d hideHud ;;
  when (truthy b) (call (webview_showOverlays false None)) ;;
  b <- onOpen_get d showCursor ;;
  when (truthy b) (call (webview_showCursor true)) ;;
  v <- onOpen_get d disableControls ;;
  dispatch_disableControls v ;;
  b <- onOpen_get d disablePauseMenu ;;
  when (truthy b) (call PauseMenu_disable) ;;
  b <- onOpen_get d hideHud ;;
  when (truthy b)
    (call (native_displayRadar false) ;; call (native_displayHud false)) ;;
  b <- onOpen_get d blurBackground ;;
  when (truthy b) (call (native_triggerScreenblurFadeIn 250)) ;;
  b <- onOpen_get d setIsMenuOpenToTrue ;;
  when (truthy b) (call (set_local_isMenuOpen true)) ;;
  call (webview_open [name d] hideOverlays (CloseBoundTo d)) ;;
  ret true.

(** The three blocking checks, then the effects. *)
Definition open_checks (d : IPage) : M bool :=
  a <- ask isAnyMenuOpen ;;
  if a then ret false else
  c <- ask isConsoleOpen ;;
  if c then ret false else
  p <- ask isMenuOpen ;;
  if p then ret false else
  open_effects d.

(** [this.info.keybind && this.info.keybind.useSameKeyToClose] *)
Definition usesSameKeyToClose (d : IPage) : bool :=
  match keybind d with
  | Some k => truthy (useSameKeyToClose k)
  | None => false
  end.

Definition open (d : IPage) : M bool :=
  if usesSameKeyToClose d then
    isOpen <- ask (fun h => isPageOpen h (name d)) ;;
    if isOpen then
      close d (Some true) ;;
      ret false
    else open_checks d
  else open_checks d.

(** What the WebView runs when it fires the registered handler. *)
Definition run_handler (hd : Handler) (arg : option bool) : M unit :=
  match hd with
  | CloseBoundTo page => close page arg
  end.


(** *** Notions used to state the properties of [open] and [close] *)

(** [options.onOpen] and [options.onClose] of a descriptor, when it has
    them. *)
Definition onOpenOf (d : IPage) : option OnOpen :=
  match options d with
  | Some o => onOpen o
  | None => None
  end.

Definition onCloseOf (d : IPage) : option OnClose :=
  match options d with
  | Some o => onClose o
  | None => None
  end.

(** A descriptor is well formed when it carries both flag sets. *)
Definition wellFormed (d : IPage) : bool :=
  match onOpenOf d, onCloseOf d with
  | Some _, Some _ => true
  | _, _ => false
  end.

(** One of the three blocking checks holds. *)
Definition blocked (h : Host) : bool :=
  isAnyMenuOpen h || isConsoleOpen h || isMenuOpen h.

(** The same-key toggle applies: the flag is set and the surface reports
    open. *)
Definition redirects (d : IPage) (h : Host) : bool :=
  usesSameKeyToClose d && isPageOpen h (name d).

Definition ifc (b : bool) (l : list Call) : list Call :=
  if b then l else [].

Definition is_invoke (c : Call) : bool :=
  match c with invoke _ => true | _ => false end.

Definition is_webview_open (c : Call) : bool :=
  match c with webview_open _ _ _ => true | _ => false end.

Definition is_webview_close (c : Call) : bool :=
  match c with webview_close _ _ => true | _ => false end.

Definition is_webview_showOverlays (c : Call) : bool :=
  match c with webview_showOverlays _ _ => true | _ => false end.

(** *** The specification's account of the two operations *)

(** "default true unless explicitly false" *)
Definition spec_default_true (x : optbool) : bool :=
  match x with
  | Some false => false
  | Some true => true
  | None => true
  end.

(** "'all' disables all input, 'camera' disables only camera movement,
    any other value/absence is a no-op" *)
Definition spec_controls (v : option string) : list Call :=
  match v with
  | Some s =>
      if String.eqb s "all" then [alt_toggleGameControls false]
      else if String.eqb s "camera" then [GameplayCamera_disable]
      else []
  | None => []
  end.

(** The side effects of [open], in the order the specification lists
    them, ending with the display call. *)
Definition spec_open_trace (d : IPage) (oo : OnOpen) : list Call :=
  ifc (truthy (focus oo)) [webview_focus] ++
  ifc (truthy (hideHud oo)) [webview_showOverlays false None] ++
  ifc (truthy (showCursor oo)) [webview_showCursor true] ++
  spec_controls (disableControls oo) ++
  ifc (truthy (disablePauseMenu oo)) [PauseMenu_disable] ++
  ifc (truthy (hideHud oo)) [native_displayRadar false; native_displayHud false] ++
  ifc (truthy (blurBackground oo)) [native_triggerScreenblurFadeIn 250] ++
  ifc (truthy (setIsMenuOpenToTrue oo)) [set_local_isMenuOpen true] ++
  [webview_open [name d] (spec_default_true (hideOverlays oo)) (CloseBoundTo d)].

(** The restoring effects of [close] that follow the overlay step and
    precede the callback. *)
Definition spec_close_restore (oc : OnClose) : list Call :=
  ifc (truthy (hideCursor oc)) [webview_showCursor false] ++
  ifc (truthy (unfocus oc)) [webview_unfocus] ++
  ifc (truthy (unblurBackground oc)) [native_triggerScreenblurFadeOut 250] ++
  ifc (truthy (setIsMenuOpenToFalse oc)) [set_local_isMenuOpen false] ++
  ifc (truthy (showHud oc)) [native_displayRadar true; native_displayHud true] ++
  ifc (truthy (enablePauseMenu oc)) [PauseMenu_enable] ++
  ifc (truthy (enableControls oc)) [alt_toggleGameControls true; GameplayCamera_enable].

(** The overlay step of [close]. *)
Definition spec_close_overlays (d : IPage) (oc : OnClose) (manual : bool) : list Call :=
  let showOverlays := spec_default_true (showOverlays oc) in
  if manual then [webview_close [name d] showOverlays]
  else if showOverlays then [webview_showOverlays true (Some false)]
  else [].

Definition spec_close_trace (d : IPage) (oc : OnClose) (manual : bool) : list Call :=
  spec_close_overlays d oc manual ++
  spec_close_restore oc ++
  [invoke (cb_onClose (callbacks d))].

(** *** Sample descriptors and hosts *)

(** The descriptor of the specification's scenario. *)
Definition inventory : IPage :=
  mkIPage "inventory"
    (mkCallbacks (UserCallback 0) (UserCallback 1))
    (Some (mkOptions None
       (Some (mkOnOpen (Some true) None (Some true) None None None None None))
       (Some (mkOnClose None None (Some true) None None None None None))))
    None.

(** The same surface bound to a key that also closes it. *)
Definition inventoryToggle : IPage :=
  mkIPage "inventory"
    (mkCallbacks (UserCallback 0) (UserCallback 1))
    (options inventory)
    (Some (mkKeybind 73 (Some true))).

(** A descriptor without [options]. *)
Definition bare : IPage :=
  mkIPage "bare" (mkCallbacks (UserCallback 0) (UserCallback 1)) None None.

(** Nothing is open. *)
Definition idleHost : Host :=
  mkHost (fun _ => false) false false false.

(** The inventory surface is open and counts as an open menu. *)
Definition inventoryOpenHost : Host :=
  mkHost (fun n => String.eqb n "inventory") true false false.

(** The inventory surface is open; no check blocks. *)
Definition inventoryShownHost : Host :=
  mkHost (fun n => String.eqb n "inventory") false false false.

End Page.

(** ** The default weather system *)

Module Weather.
Import Js.

Definition WEATHER_KEY : Type := string.

(** An array slot: a key, or [undefined]. *)
Definition slot : Type := option WEATHER_KEY.

Record Player : Type := mkPlayer {
  id : nat;
  valid : bool;
  hasFullySpawned : optbool
}.

Inductive Effect : Type :=
| emit_message (p : Player) (msg : string)
| player_setWeather (p : Player) (weather : Z)
| alt_clearInterval (handle : Z)
| alt_log (msg : string).

(** The module-level variables [weathers], [enabled] and [interval]. *)
Record State : Type := mkState {
  weathers : list slot;
  enabled : bool;
  interval : option Z
}.

Definition TIME_BETWEEN_UPDATES : Z := 60000 * 5.

Definition initial_weathers : list slot :=
  map Some
    ["ExtraSunny"; "ExtraSunny"; "Clear"; "Clouds"; "Overcast"; "Rain";
     "Thunder"; "Rain"; "Foggy"; "Overcast"; "Clearing"].

(** [interval] is declared and never assigned. *)
Definition initial : State := mkState initial_weathers true None.

(** [weathers[0]] *)
Definition first (ws : list slot) : slot :=
  match ws with
  | x :: _ => x
  | [] => None
  end.

(** [Array.prototype.shift]: [undefined] on the empty array. *)
Definition shift (ws : list slot) : slot * list slot :=
  match ws with
  | x :: rest => (x, rest)
  | [] => (None, [])
  end.

(** [Array.prototype.push] *)
Definition push (ws : list slot) (x : slot) : list slot := ws ++ [x].

(** A slot inside a template literal. *)
Definition interpolate (x : slot) : string :=
  match x with
  | Some k => k
  | None => "undefined"
  end.

(** [(x) => x && x.valid && x.hasFullySpawned] as a filter predicate. *)
Definition isLoggedIn (x : option Player) : bool :=
  match x with
  | Some p => valid p && truthy (hasFullySpawned p)
  | None => false
  end.

(** The result of [getCurrentWeather]: [number | string]. *)
Inductive WeatherValue : Type :=
| AsString (k : slot)
| AsNumber (n : Z).

(** Left rotation by one element. *)
Definition rotate_left (ws : list slot) : list slot :=
  match ws with
  | x :: rest => rest ++ [x]
  | [] => []
  end.

Section WithWeatherTable.

(** [getWeatherFromString] of [@AthenaShared/utility/weather]. *)
Variable getWeatherFromString : slot -> Z.

Definition updatePlayer (s : State) (player : Player) : list Effect :=
  if negb (enabled s) then []
  else
    [emit_message player
       ("Weather is now " ++ interpolate (first (weathers s)) ++ ".")%string;
     player_setWeather player (getWeatherFromString (first (weathers s)))].

Definition handleWeatherUpdate (all : list (option Player)) (s : State)
  : State * list Effect :=
  if negb (enabled s) then (s, [])
  else
    let loggedInPlayers := filter isLoggedIn all in
    if (Z.of_nat (List.length loggedInPlayers) <=? 0)%Z then (s, [])
    else
      let (x, rest) := shift (weathers s) in
      let s' := mkState (push rest x) (enabled s) (interval s) in
      (s',
       flat_map
         (fun x => match x with
                   | Some player => updatePlayer s' player
                   | None => []
                   end)
         loggedInPlayers).

Definition disable (s : State) : State * list Effect :=
  let s1 := mkState (weathers s) false (interval s) in
  match interval s1 with
  | Some i =>
      (mkState (weathers s1) (enabled s1) None,
       [alt_clearInterval i; alt_log "Default Weather System Turned Off"])
  | None => (s1, [alt_log "Default Weather System Turned Off"])
  end.

Definition getCurrentWeather (asString : option bool) (s : State) : WeatherValue :=
  let asString := match asString with Some b => b | None => false end in
  if asString then AsString (first (weathers s))
  else AsNumber (getWeatherFromString (first (weathers s))).

(** Everything the module lets happen to its state: the timer firing
    with some player list, a character being selected, or a call to the
    exported object. *)
Inductive Operation : Type :=
| timer_fires (all : list (option Player))
| character_selected (player : Player)
| call_disable
| call_getCurrentWeather (asString : option bool)
| call_updatePlayer (player : Player).

Definition step (op : Operation) (s : State) : State :=
  match op with
  | timer_fires all => fst (handleWeatherUpdate all s)
  | call_disable => fst (disable s)
  | character_selected _ => s
  | call_getCurrentWeather _ => s
  | call_updatePlayer _ => s
  end.

Inductive reachable : State -> Prop :=
| reach_initial : reachable initial
| reach_step (op : Operation) (s : State) :
    reachable s -> reachable (step op s).

End WithWeatherTable.

(** A sample weather table and player. *)
Definition sampleTable (x : slot) : Z :=
  match x with
  | Some k => Z.of_nat (String.length k)
  | None => 0
  end.

Definition alice : Player := mkPlayer 1 true (Some true).

End Weather.

(** ** Vehicle doors *)

Module Vehicle.

(** The part of [alt.Vehicle] that [toggleDoor] touches: the state of
    each door, by index. *)
Record Vehicle : Type := mkVehicle {
  doorStates : Z -> Z
}.

Definition getDoorState (v : Vehicle) (door : Z) : Z := doorStates v door.

Definition setDoorState (v : Vehicle) (door : Z) (state : Z) : Vehicle :=
  mkVehicle (fun d => if (d =? door)%Z then state else doorStates v d).

Definition toggleDoor (vehicle : Vehicle) (door : Z) : bool * Vehicle :=
  let isClosed := if (getDoorState vehicle door =? 0)%Z then true else false in
  let doorState := if Bool.eqb isClosed false then 0%Z else 7%Z in
  let vehicle' := setDoorState vehicle door doorState in
  (Bool.eqb isClosed false, vehicle').

(** A door is open when its state is not 0. *)
Definition isDoorOpen (v : Vehicle) (door : Z) : bool :=
  negb (getDoorState v door =? 0)%Z.

(** All doors closed except the bonnet (door 4), fully open. *)
Definition sampleVehicle : Vehicle :=
  mkVehicle (fun d => if (d =? 4)%Z then 7%Z else 0%Z).

End Vehicle.

(** ** The page controller: construction *)

Module PageSetup.
Import Js Page.

(** [this.open.bind(this)]: the closure registered with the hotkey. *)
Inductive OpenHandler : Type :=
| OpenBoundTo (page : IPage).

(** The two fields the constructor overrides in the registered binding. *)
Inductive HotkeyBinding : Type :=
| keyDown (callback : OpenHandler)
| delayedKeyDown (msToTrigger : Z) (callback : OpenHandler).

Inductive SetupCall : Type :=
| hotkeys_add (info : Keybind) (binding : HotkeyBinding)
| webview_disableEscapeKey (pageName : string)
| webview_ready (pageName : string) (cb : AnyCallback).

Definition is_hotkeys_add (c : SetupCall) : bool :=
  match c with hotkeys_add _ _ => true | _ => false end.

Definition is_webview_ready (c : SetupCall) : bool :=
  match c with webview_ready _ _ => true | _ => false end.

Definition is_disableEscapeKey (c : SetupCall) : bool :=
  match c with webview_disableEscapeKey _ => true | _ => false end.

(** [x && x.msToTrigger] on the optional [delayedKeyDown] object: a
    number is truthy when it is not 0. *)
Definition truthyMs (delayed : option (option Z)) : option Z :=
  match delayed with
  | Some (Some ms) => if (ms =? 0)%Z then None else Some ms
  | _ => None
  end.

Definition run_open_handler (hd : OpenHandler) : M bool :=
  match hd with
  | OpenBoundTo page => open page
  end.

Section WithKeyInfo.

(** [BaseKeyInfo.delayedKeyDown] of [@AthenaClient/interface/hotkeys]:
    absent, or an object whose [msToTrigger] may be absent. *)
Variable delayedKeyDownOf : Keybind -> option (option Z).

(** The constructor of [Page]: the calls it issues, in order. *)
Definition constructor (page : IPage) : list SetupCall :=
  (match keybind page with
   | Some k =>
       match truthyMs (delayedKeyDownOf k) with
       | Some ms => [hotkeys_add k (delayedKeyDown ms (OpenBoundTo page))]
       | None => [hotkeys_add k (keyDown (OpenBoundTo page))]
       end
   | None => []
   end) ++
  (if match options page with
      | Some o => truthy (disableEscapeKey o)
      | None => false
      end
   then [webview_disableEscapeKey (name page)]
   else []) ++
  [webview_ready (name page) (cb_onReady (callbacks page))].

End WithKeyInfo.

(** Further calls singled out of a trace. *)
Definition is_toggleGameControls (c : Call) : bool :=
  match c with alt_toggleGameControls _ => true | _ => false end.

Definition is_GameplayCamera_disable (c : Call) : bool :=
  match c with GameplayCamera_disable => true | _ => false end.

(** Every flag of [onOpen] and of [onClose] left out. *)
Definition emptyOnOpen : OnOpen :=
  mkOnOpen None None None None None None None None.

Definition emptyOnClose : OnClose :=
  mkOnClose None None None None None None None None.

(** A page with empty flag sets, bound to a key held for [ms]. *)
Definition plainPage : IPage :=
  mkIPage "plain" (mkCallbacks (UserCallback 2) (UserCallback 3))
    (Some (mkOptions (Some true) (Some emptyOnOpen) (Some emptyOnClose)))
    (Some (mkKeybind 112 None)).

(** A page whose controls flag is ['camera']. *)
Definition cameraPage : IPage :=
  mkIPage "camera" (mkCallbacks (UserCallback 2) (UserCallback 3))
    (Some (mkOptions None
       (Some (mkOnOpen None None None None (Some "camera") None None None))
       (Some emptyOnClose)))
    None.



End PageSetup.

(** ** The weather system over sequences of operations *)

Module WeatherRuns.
Import Js Weather.

Definition is_player_effect (e : Effect) : bool :=
  match e with
  | emit_message _ _ => true
  | player_setWeather _ _ => true
  | _ => false
  end.

Definition is_clearInterval (e : Effect) : bool :=
  match e with alt_clearInterval _ => true | _ => false end.

Section WithWeatherTable.

Variable getWeatherFromString : slot -> Z.

(** What an operation emits in a state. *)
Definition effects_of (op : Operation) (s : State) : list Effect :=
  match op with
  | timer_fires all => snd (handleWeatherUpdate getWeatherFromString all s)
  | character_selected player => updatePlayer getWeatherFromString s player
  | call_disable => snd (disable s)
  | call_getCurrentWeather _ => []
  | call_updatePlayer player => updatePlayer getWeatherFromString s player
  end.

(** Operations one after another: final state and everything emitted. *)
Fixpoint run (ops : list Operation) (s : State) : State * list Effect :=
  match ops with
  | [] => (s, [])
  | op :: rest =>
      let s1 := step getWeatherFromString op s in
      let (s2, es) := run rest s1 in
      (s2, effects_of op s ++ es)
  end.

(** The timer firing once for each player list of [alls]. *)
Definition timer_runs (alls : list (list (option Player))) : list Operation :=
  map timer_fires alls.

End WithWeatherTable.

(** A player list holds a valid, fully spawned player. *)
Definition someoneLoggedIn (all : list (option Player)) : bool :=
  existsb isLoggedIn all.

(** A player who has not finished spawning, and a stale handle. *)
Definition bob : Player := mkPlayer 2 true None.
Definition carol : Player := mkPlayer 3 false (Some true).

End WeatherRuns.

(** ** Vehicle doors, again, and locks, engine and persistence *)

Module VehicleOps.
Import Vehicle.

(** [n] calls of [toggleDoor] on one door; the vehicle after them. *)
Fixpoint toggleDoorTimes (n : nat) (v : Vehicle) (door : Z) : Vehicle :=
  match n with
  | O => v
  | S k => toggleDoorTimes k (snd (toggleDoor v door)) door
  end.

(** A JavaScript value stored in a document. *)
Inductive JsVal : Type :=
| JNum (n : Z)
| JBool (b : bool)
| JStr (s : string).

(** A plain object, by the value of each key. *)
Definition Obj : Type := string -> option JsVal.

Definition emptyObj : Obj := fun _ => None.

(** [{ ...o, k: v }] *)
Definition setKey (k : string) (v : JsVal) (o : Obj) : Obj :=
  fun k' => if String.eqb k' k then Some v else o k'.

Record Vector3 : Type := mkVector3 { vx : Z; vy : Z; vz : Z }.

(** The properties of [alt.Vehicle] read or written by [toggleLock],
    [toggleEngine], [isLocked] and [update]. *)
Record VehicleObj : Type := mkVehicleObj {
  valid : bool;
  lockState : Z;
  engineOn : bool;
  driver : option nat;
  bodyHealth : Z;
  engineHealth : Z;
  lightState : Z;
  dirtLevel : Z;
  pos : Vector3;
  rot : Vector3
}.

Definition set_lockState (v : VehicleObj) (x : Z) : VehicleObj :=
  mkVehicleObj (valid v) x (engineOn v) (driver v) (bodyHealth v)
    (engineHealth v) (lightState v) (dirtLevel v) (pos v) (rot v).

Definition set_engineOn (v : VehicleObj) (x : bool) : VehicleObj :=
  mkVehicleObj (valid v) (lockState v) x (driver v) (bodyHealth v)
    (engineHealth v) (lightState v) (dirtLevel v) (pos v) (rot v).

(** The vehicle's document; of its fields only [state] is read here. *)
Record Document : Type := mkDocument {
  doc_id : nat;
  state : option Obj
}.

Inductive Effect : Type :=
| driver_emit_VEHICLE_ENGINE (player : nat) (value : bool)
| document_setBulk (v : VehicleObj) (pos rot : Vector3) (state : Obj).

(** The six keys [update] writes, from the vehicle, over [base]. *)
Definition writeState (vehicle : VehicleObj) (base : Obj) : Obj :=
  setKey "dirtLevel" (JNum (dirtLevel vehicle))
    (setKey "lightState" (JNum (lightState vehicle))
       (setKey "lockState" (JNum (lockState vehicle))
          (setKey "engineOn" (JBool (engineOn vehicle))
             (setKey "engineHealth" (JNum (engineHealth vehicle))
                (setKey "bodyHealth" (JNum (bodyHealth vehicle)) base))))).

Definition stateKeys : list string :=
  ["bodyHealth"; "engineHealth"; "engineOn"; "lockState"; "lightState";
   "dirtLevel"].

Section WithLockStates.

(** [VEHICLE_LOCK_STATE.LOCKED] and [.UNLOCKED] of
    [@AthenaShared/enums/vehicle]. *)
Variable LOCKED : Z.
Variable UNLOCKED : Z.

Definition toggleLock (vehicle : VehicleObj) : bool * VehicleObj :=
  let vehicle' :=
    set_lockState vehicle
      (if (lockState vehicle =? LOCKED)%Z then UNLOCKED else LOCKED) in
  ((lockState vehicle' =? LOCKED)%Z, vehicle').

Definition isLocked (vehicle : VehicleObj) : bool :=
  (lockState vehicle =? LOCKED)%Z.

End WithLockStates.

Definition toggleEngine (vehicle : VehicleObj)
  : bool * VehicleObj * list Effect :=
  match driver vehicle with
  | Some player =>
      (engineOn vehicle, vehicle,
       [driver_emit_VEHICLE_ENGINE player (negb (engineOn vehicle))])
  | None =>
      let vehicle' := set_engineOn vehicle (negb (engineOn vehicle)) in
      (engineOn vehicle', vehicle', [])
  end.

Section WithDocuments.

(** [Athena.document.vehicle.get]: the cached document, if any. *)
Variable document_vehicle_get : VehicleObj -> option Document.

(** [update]: the document as it leaves it, and the calls issued.  The
    argument is [None] for a null vehicle. *)
Definition update (vehicle : option VehicleObj)
  : option Document * list Effect :=
  match vehicle with
  | None => (None, [])
  | Some v =>
      if negb (valid v) then (None, [])
      else
        match document_vehicle_get v with
        | None => (None, [])
        | Some data =>
            let state' :=
              match state data with
              | Some old => writeState v old
              | None => writeState v emptyObj
              end in
            (Some (mkDocument (doc_id data) (Some state')),
             [document_setBulk v (pos v) (rot v) state'])
        end
  end.

End WithDocuments.

(** Sample values. *)
Definition origin : Vector3 := mkVector3 0 0 0.

Definition parkedCar : VehicleObj :=
  mkVehicleObj true 1 false None 1000 1000 0 3 origin origin.

Definition drivenCar : VehicleObj :=
  mkVehicleObj true 4 true (Some 7) 900 800 1 5 origin origin.

Definition ownedDoc : Document :=
  mkDocument 1 (Some (setKey "fuel" (JNum 42) emptyObj)).

End VehicleOps.

(** ** Clothing crafting *)

Module ClothingCrafting.

Definition SYSTEM_NAME : string := "Clothing Crafting".

Inductive Effect : Type :=
| recipe_add (uid : string) (combo : list string) (quantities : list Z)
    (resultDbName : string) (resultQuantity : Z) (sound : string)
| alt_log (msg : string).

Definition is_recipe_add (e : Effect) : bool :=
  match e with recipe_add _ _ _ _ _ _ => true | _ => false end.

(** [Internal.init] in a module whose flag is [enabled]. *)
Definition init (enabled : bool) : list Effect :=
  if negb enabled then []
  else
    [recipe_add "clothing" ["clothing"; "clothing"] [1%Z; 1%Z]
       "clothing" 1 "item_clothing_combine";
     alt_log ("~lc~Default System: ~g~" ++ SYSTEM_NAME)%string].

(** [DefaultClothingCrafting.disable]: the flag after it, and its log. *)
Definition disable (enabled : bool) : bool * list Effect :=
  (false, [alt_log ("~y~Default " ++ SYSTEM_NAME ++ " Turned Off")%string]).

Inductive Operation : Type :=
| call_init
| call_disable.

Fixpoint run (ops : list Operation) (enabled : bool) : bool * list Effect :=
  match ops with
  | [] => (enabled, [])
  | call_init :: rest =>
      let (e, es) := run rest enabled in (e, init enabled ++ es)
  | call_disable :: rest =>
      let (e1, es1) := disable enabled in
      let (e, es) := run rest e1 in (e, es1 ++ es)
  end.

(** The [call_init]s of [ops] that come before its first [call_disable]. *)
Fixpoint initsBeforeDisable (ops : list Operation) : nat :=
  match ops with
  | call_init :: rest => S (initsBeforeDisable rest)
  | _ => O
  end.

Section WithComponent.

(** [ClothingComponent] of [@AthenaShared/interfaces/item]. *)
Variable ClothingComponent : Type.

(** [ClothingInfo]: [sex] compared with [!==], [components] an array. *)
Record ClothingInfo : Type := mkClothingInfo {
  sex : option Z;
  components : list ClothingComponent
}.

(** [StoredItem<ClothingInfo>]; [combineData] reads [data] only. *)
Record StoredItem : Type := mkStoredItem {
  dbName : string;
  quantity : Z;
  slot : Z;
  data : ClothingInfo
}.

(** [a !== b] on an optional number. *)
Definition strictNeq (a b : option Z) : bool :=
  match a, b with
  | Some x, Some y => negb (x =? y)%Z
  | None, None => false
  | _, _ => true
  end.

Definition combineData (item1 item2 : StoredItem) : option ClothingInfo :=
  if strictNeq (sex (data item1)) (sex (data item2)) then None
  else
    let data0 := mkClothingInfo (sex (data item1)) [] in
    Some (mkClothingInfo (sex data0)
            (components data0 ++ components (data item1)
               ++ components (data item2))).

End WithComponent.

Arguments mkClothingInfo {ClothingComponent} sex components.
Arguments sex {ClothingComponent} c.
Arguments components {ClothingComponent} c.
Arguments mkStoredItem {ClothingComponent} dbName quantity slot data.
Arguments data {ClothingComponent} s.
Arguments combineData {ClothingComponent} item1 item2.

(** Sample items; a component is a number here. *)
Definition shirt : StoredItem nat :=
  mkStoredItem "clothing" 1 0 (mkClothingInfo (Some 0%Z) [11; 12]).

Definition pants : StoredItem nat :=
  mkStoredItem "clothing" 1 1 (mkClothingInfo (Some 0%Z) [4]).

Definition dress : StoredItem nat :=
  mkStoredItem "clothing" 1 2 (mkClothingInfo (Some 1%Z) [8]).

End ClothingCrafting.

(** * Properties *)

Import Js.

(** ** Running page computations *)

Section PageRuns.
Import Page.
Local Open Scope page_scope.

Lemma run_bind_ok {A B} (m : M A) (k : A -> M B) h a t1 r t2 :
  m h = (Ok a, t1) -> k a h = (r, t2) -> bind m k h = (r, t1 ++ t2).
Proof.
  intros Hm Hk. unfold bind. rewrite Hm, Hk. reflexivity.
Qed.

Lemma run_bind_throw {A B} (m : M A) (k : A -> M B) h e t :
  m h = (Throw e, t) -> bind m k h = (Throw e, t).
Proof.
  intros Hm. unfold bind. rewrite Hm. reflexivity.
Qed.

Lemma run_when b (body : M unit) h t :
  body h = (Ok tt, t) -> when b body h = (Ok tt, ifc b t).
Proof.
  intros Hb. destruct b; simpl; [exact Hb | reflexivity].
Qed.

Lemma run_call c h : call c h = (Ok tt, [c]).
Proof. reflexivity. Qed.

Lemma run_call2 c1 c2 h : (call c1 ;; call c2) h = (Ok tt, [c1; c2]).
Proof. reflexivity. Qed.

Lemma run_ret {A} (a : A) h : ret a h = (Ok a, []).
Proof. reflexivity. Qed.

Lemma run_onOpen_get {A} d oo (f : OnOpen -> A) h :
  onOpenOf d = Some oo -> onOpen_get d f h = (Ok (f oo), []).
Proof.
  unfold onOpenOf, onOpen_get, read_onOpen, bind.
  destruct (options d) as [o|]; [|discriminate].
  intros ->. reflexivity.
Qed.

Lemma run_onClose_get {A} d oc (f : OnClose -> A) h :
  onCloseOf d = Some oc -> onClose_get d f h = (Ok (f oc), []).
Proof.
  unfold onCloseOf, onClose_get, read_onClose, bind.
  destruct (options d) as [o|]; [|discriminate].
  intros ->. reflexivity.
Qed.

Lemma run_onOpen_get_missing {A} d (f : OnOpen -> A) h :
  onOpenOf d = None -> onOpen_get d f h = (Throw TypeError, []).
Proof.
  unfold onOpenOf, onOpen_get, read_onOpen, bind.
  destruct (options d) as [o|]; [|reflexivity].
  intros ->. reflexivity.
Qed.

Lemma run_onClose_get_missing {A} d (f : OnClose -> A) h :
  onCloseOf d = None -> onClose_get d f h = (Throw TypeError, []).
Proof.
  unfold onCloseOf, onClose_get, read_onClose, bind.
  destruct (options d) as [o|]; [|reflexivity].
  intros ->. reflexivity.
Qed.

Lemma run_dispatch_disableControls v h :
  dispatch_disableControls v h = (Ok tt, spec_controls v).
Proof.
  unfold dispatch_disableControls, spec_controls, strictEq.
  destruct v as [s|]; [|reflexivity].
  destruct (String.eqb s "all"); [reflexivity|].
  destruct (String.eqb s "camera"); reflexivity.
Qed.

Lemma default_true_eq x :
  (if isFalse x then false else true) = spec_default_true x.
Proof. destruct x as [[]|]; reflexivity. Qed.

(** One statement of a method body after another. *)
Ltac run_step :=
  first
    [ (eapply run_onOpen_get; eassumption)
    | (eapply run_onClose_get; eassumption)
    | apply run_call2
    | apply run_call
    | apply run_ret
    | apply run_dispatch_disableControls
    | eapply run_when
    | eapply run_bind_ok ].

Lemma run_eq {A} (m : M A) h r t t' :
  m h = (r, t) -> t = t' -> m h = (r, t').
Proof. intros -> ->. reflexivity. Qed.

(** [close] on a descriptor that has [options.onClose]. *)
Lemma close_runs d oc arg h :
  onCloseOf d = Some oc ->
  close d arg h =
    (Ok tt, spec_close_trace d oc (match arg with Some b => b | None => false end)).
Proof.
  intros Hoc. unfold close.
  set (m := match arg with Some b => b | None => false end).
  eapply run_eq; [repeat run_step|].
  unfold spec_close_trace, spec_close_overlays, spec_close_restore.
  rewrite default_true_eq.
  destruct m, (spec_default_true (showOverlays oc));
    cbn [app ifc negb andb]; rewrite <- ?app_assoc; reflexivity.
Qed.

(** A descriptor without [options.onClose] makes [close] throw at its
    first statement. *)
Lemma close_missing d arg h :
  onCloseOf d = None -> close d arg h = (Throw TypeError, []).
Proof.
  intros Hoc. unfold close.
  eapply run_bind_throw. apply run_onClose_get_missing. exact Hoc.
Qed.

Lemma open_effects_runs d oo h :
  onOpenOf d = Some oo -> open_effects d h = (Ok true, spec_open_trace d oo).
Proof.
  intros Hoo. unfold open_effects.
  eapply run_eq; [repeat run_step|].
  unfold spec_open_trace. rewrite default_true_eq.
  cbn [app]. rewrite ?app_nil_r. reflexivity.
Qed.

Lemma open_effects_missing d h :
  onOpenOf d = None -> open_effects d h = (Throw TypeError, []).
Proof.
  intros Hoo. unfold open_effects.
  eapply run_bind_throw. apply run_onOpen_get_missing. exact Hoo.
Qed.

Lemma open_checks_blocked d h :
  blocked h = true -> open_checks d h = (Ok false, []).
Proof.
  unfold blocked, open_checks, bind, ask.
  destruct (isAnyMenuOpen h); [reflexivity|].
  destruct (isConsoleOpen h); [reflexivity|].
  destruct (isMenuOpen h); [reflexivity|discriminate].
Qed.

Lemma open_checks_clear d h :
  blocked h = false -> open_checks d h = open_effects d h.
Proof.
  unfold blocked, open_checks, bind, ask.
  destruct (isAnyMenuOpen h); [discriminate|].
  destruct (isConsoleOpen h); [discriminate|].
  destruct (isMenuOpen h); [discriminate|].
  intros _. cbn [app]. destruct (open_effects d h) as [[b|e] t]; reflexivity.
Qed.

Lemma open_no_redirect d h :
  redirects d h = false -> open d h = open_checks d h.
Proof.
  unfold redirects, open, bind, ask.
  destruct (usesSameKeyToClose d); [|reflexivity].
  cbn [andb]. intros ->. cbn [app].
  destruct (open_checks d h) as [[b|e] t]; reflexivity.
Qed.

Lemma open_redirect d h :
  redirects d h = true -> open d h = (close d (Some true) ;; ret false) h.
Proof.
  unfold redirects, open.
  destruct (usesSameKeyToClose d); [|discriminate].
  cbn [andb]. intros Hopen. unfold bind at 1, ask. rewrite Hopen. cbn [app].
  destruct ((close d (Some true) ;; ret false) h) as [[b|e] t]; reflexivity.
Qed.

Lemma filter_ifc (f : Call -> bool) b l :
  filter f (ifc b l) = ifc b (filter f l).
Proof. destruct b; reflexivity. Qed.

Lemma ifc_nil b : ifc b [] = [].
Proof. destruct b; reflexivity. Qed.

(** Filtering a trace built from guarded blocks, block by block. *)
Ltac filter_blocks :=
  rewrite ?filter_app, ?filter_ifc; cbn [filter]; rewrite ?ifc_nil; cbn [app].

Lemma restore_has_no_invoke oc : filter is_invoke (spec_close_restore oc) = [].
Proof.
  unfold spec_close_restore. filter_blocks.
  cbn [is_invoke]. rewrite ?ifc_nil. reflexivity.
Qed.

Lemma restore_has_no_close oc :
  filter is_webview_close (spec_close_restore oc) = [].
Proof.
  unfold spec_close_restore. filter_blocks.
  cbn [is_webview_close]. rewrite ?ifc_nil. reflexivity.
Qed.

Lemma restore_has_no_showOverlays oc :
  filter is_webview_showOverlays (spec_close_restore oc) = [].
Proof.
  unfold spec_close_restore. filter_blocks.
  cbn [is_webview_showOverlays]. rewrite ?ifc_nil. reflexivity.
Qed.

Lemma overlays_have_no_invoke d oc manual :
  filter is_invoke (spec_close_overlays d oc manual) = [].
Proof.
  unfold spec_close_overlays.
  destruct manual, (spec_default_true (showOverlays oc)); reflexivity.
Qed.

Lemma spec_controls_no_open v : filter is_webview_open (spec_controls v) = [].
Proof.
  unfold spec_controls. destruct v as [s|]; [|reflexivity].
  destruct (String.eqb s "all"); [reflexivity|].
  destruct (String.eqb s "camera"); reflexivity.
Qed.

Lemma open_trace_display d oo :
  filter is_webview_open (spec_open_trace d oo) =
    [webview_open [name d] (spec_default_true (hideOverlays oo)) (CloseBoundTo d)].
Proof.
  unfold spec_open_trace. filter_blocks.
  rewrite spec_controls_no_open.
  cbn [is_webview_open]. rewrite ?ifc_nil. reflexivity.
Qed.

(** ** The close callback *)

(** C1. On a page descriptor (one carrying [options.onClose]), every call
    [close(isManuallyTriggered)], manual, automatic or with the argument
    left out, returns normally with a trace whose last call is the
    invocation of the descriptor's [onClose] callback, and no other
    callback invocation occurs in it: the callback runs exactly once,
    last, whatever the [onClose] flags are. *)
Theorem close_invokes_onClose_once (d : IPage) (oc : OnClose)
    (arg : option bool) (h : Host) :
  onCloseOf d = Some oc ->
  exists pre,
    close d arg h = (Ok tt, pre ++ [invoke (cb_onClose (callbacks d))]) /\
    filter is_invoke pre = [] /\
    filter is_invoke (trace (close d arg h)) = [invoke (cb_onClose (callbacks d))].
Proof.
  intros Hoc.
  set (m := match arg with Some b => b | None => false end).
  exists (spec_close_overlays d oc m ++ spec_close_restore oc).
  rewrite (close_runs d oc arg h Hoc). fold m.
  unfold spec_close_trace, trace. cbn [snd].
  rewrite app_assoc.
  assert (Hpre : filter is_invoke
                   (spec_close_overlays d oc m ++ spec_close_restore oc) = []).
  { rewrite filter_app, overlays_have_no_invoke, restore_has_no_invoke.
    reflexivity. }
  repeat split.
  - exact Hpre.
  - rewrite filter_app, Hpre. reflexivity.
Qed.

Lemma close_invokes_onClose_once_witness :
  exists pre,
    close inventory None idleHost = (Ok tt, pre ++ [invoke (UserCallback 1)]) /\
    filter is_invoke pre = [] /\
    filter is_invoke (trace (close inventory None idleHost)) =
      [invoke (UserCallback 1)].
Proof.
  apply (close_invokes_onClose_once inventory
           (mkOnClose None None (Some true) None None None None None)
           None idleHost).
  reflexivity.
Defined.

(** ** Blocking checks *)

(** C2, as stated, fails: with the same-key toggle set and the surface
    open, [open] runs [close(true)] before it looks at the blocking
    checks, so calls are issued although a check holds. *)
Lemma open_blocked_toggle_counterexample :
  ~ (forall d h,
       isAnyMenuOpen h = true \/ isConsoleOpen h = true \/ isMenuOpen h = true ->
       open d h = (Ok false, [])).
Proof.
  intros H.
  specialize (H inventoryToggle inventoryOpenHost (or_introl eq_refl)).
  vm_compute in H. discriminate H.
Qed.

(** C2, amended. When the same-key toggle does not apply (the flag is not
    set, or the surface does not report open) and one of the three
    blocking checks holds, [open] returns [false] and issues no call at
    all; it does not throw, whatever the descriptor. *)
Theorem open_blocked_no_effects (d : IPage) (h : Host) :
  redirects d h = false ->
  isAnyMenuOpen h = true \/ isConsoleOpen h = true \/ isMenuOpen h = true ->
  open d h = (Ok false, []).
Proof.
  intros Hred Hblk.
  rewrite (open_no_redirect d h Hred).
  apply open_checks_blocked. unfold blocked.
  destruct Hblk as [-> | [-> | ->]]; rewrite ?orb_true_r; reflexivity.
Qed.

Lemma open_blocked_no_effects_witness :
  open inventory (mkHost (fun _ => false) false true false) = (Ok false, []).
Proof.
  apply (open_blocked_no_effects inventory
           (mkHost (fun _ => false) false true false)).
  - reflexivity.
  - right. left. reflexivity.
Defined.

(** ** The effects of a successful open *)

(** C3. On a page descriptor (one carrying [options.onOpen]), when the
    same-key toggle does not apply and no blocking check holds, [open]
    issues exactly the calls of [spec_open_trace], in that order, each
    under its own flag, the last one being the display call with the
    computed [hideOverlays] flag and [close] bound to the page as handler,
    and returns [true]; firing the handler runs [close] of that page. *)
Theorem open_effects_in_order (d : IPage) (oo : OnOpen) (h : Host) :
  onOpenOf d = Some oo ->
  redirects d h = false ->
  blocked h = false ->
  open d h = (Ok true, spec_open_trace d oo) /\
  (forall arg, run_handler (CloseBoundTo d) arg = close d arg).
Proof.
  intros Hoo Hred Hblk. split.
  - rewrite (open_no_redirect d h Hred), (open_checks_clear d h Hblk).
    apply open_effects_runs. exact Hoo.
  - intros arg. reflexivity.
Qed.

Lemma open_effects_in_order_witness :
  open inventory idleHost =
    (Ok true,
     [webview_focus; webview_showOverlays false None;
      native_displayRadar false; native_displayHud false;
      webview_open ["inventory"] true (CloseBoundTo inventory)]) /\
  (forall arg, run_handler (CloseBoundTo inventory) arg = close inventory arg).
Proof.
  apply (open_effects_in_order inventory
           (mkOnOpen (Some true) None (Some true) None None None None None)
           idleHost); reflexivity.
Defined.

(** ** Overlay defaults *)

(** C4. [open] passes [hideOverlays = true] to the display call when
    [onOpen.hideOverlays] is omitted or [true], and [false] when it is
    [false]; [close] computes [showOverlays] the same way from
    [onClose.showOverlays], as seen in the flag of the hide call of a
    manual close and in the presence of the direct overlay call of an
    automatic one. *)
Theorem overlay_flags_default_true :
  (forall d oo h,
     onOpenOf d = Some oo -> redirects d h = false -> blocked h = false ->
     (hideOverlays oo = None \/ hideOverlays oo = Some true ->
      filter is_webview_open (trace (open d h)) =
        [webview_open [name d] true (CloseBoundTo d)]) /\
     (hideOverlays oo = Some false ->
      filter is_webview_open (trace (open d h)) =
        [webview_open [name d] false (CloseBoundTo d)])) /\
  (forall d oc h,
     onCloseOf d = Some oc ->
     (showOverlays oc = None \/ showOverlays oc = Some true ->
      filter is_webview_close (trace (close d (Some true) h)) =
        [webview_close [name d] true] /\
      filter is_webview_showOverlays (trace (close d (Some false) h)) =
        [webview_showOverlays true (Some false)]) /\
     (showOverlays oc = Some false ->
      filter is_webview_close (trace (close d (Some true) h)) =
        [webview_close [name d] false] /\
      filter is_webview_showOverlays (trace (close d (Some false) h)) = [])).
Proof.
  split.
  - intros d oo h Hoo Hred Hblk.
    rewrite (open_no_redirect d h Hred), (open_checks_clear d h Hblk),
      (open_effects_runs d oo h Hoo).
    unfold trace. cbn [snd]. rewrite open_trace_display.
    split; [intros [-> | ->] | intros ->]; reflexivity.
  - intros d oc h Hoc.
    rewrite !(close_runs d oc _ h Hoc).
    unfold trace, spec_close_trace. cbn [snd].
    rewrite !filter_app, restore_has_no_close, restore_has_no_showOverlays.
    unfold spec_close_overlays.
    split; [intros [-> | ->] | intros ->]; split; reflexivity.
Qed.

Lemma overlay_flags_default_true_witness :
  filter is_webview_open (trace (open inventory idleHost)) =
    [webview_open ["inventory"] true (CloseBoundTo inventory)] /\
  filter is_webview_close (trace (close inventory (Some true) idleHost)) =
    [webview_close ["inventory"] true].
Proof.
  split.
  - apply (proj1 overlay_flags_default_true inventory
             (mkOnOpen (Some true) None (Some true) None None None None None)
             idleHost); try reflexivity.
    left. reflexivity.
  - apply (proj2 overlay_flags_default_true inventory
             (mkOnClose None None (Some true) None None None None None)
             idleHost); try reflexivity.
    left. reflexivity.
Defined.

(** ** The same-key toggle *)

(** C5. With [keybind.useSameKeyToClose] set and the surface reporting
    open, [open] does what [close(true)] does and nothing else: the same
    calls in the same order, an exception of [close] passed on, and
    [false] returned once [close] has returned, which it does on every
    descriptor carrying [options.onClose]. *)
Theorem open_toggle_is_close (d : IPage) (h : Host) :
  usesSameKeyToClose d = true ->
  isPageOpen h (name d) = true ->
  trace (open d h) = trace (close d (Some true) h) /\
  (forall t, close d (Some true) h = (Ok tt, t) -> open d h = (Ok false, t)) /\
  (forall e t, close d (Some true) h = (Throw e, t) -> open d h = (Throw e, t)) /\
  (forall oc, onCloseOf d = Some oc ->
     open d h = (Ok false, spec_close_trace d oc true)).
Proof.
  intros Hkey Hopen.
  assert (Hred : redirects d h = true).
  { unfold redirects. rewrite Hkey, Hopen. reflexivity. }
  rewrite (open_redirect d h Hred).
  assert (Hok : forall t, close d (Some true) h = (Ok tt, t) ->
                          (close d (Some true) ;; ret false) h = (Ok false, t)).
  { intros t Ht. unfold bind at 1. rewrite Ht. cbn. rewrite app_nil_r.
    reflexivity. }
  assert (Hthrow : forall e t, close d (Some true) h = (Throw e, t) ->
                     (close d (Some true) ;; ret false) h = (Throw e, t)).
  { intros e t Ht. apply run_bind_throw. exact Ht. }
  repeat split.
  - destruct (close d (Some true) h) as [[[]|e] t] eqn:Hc.
    + rewrite (Hok t eq_refl). reflexivity.
    + rewrite (Hthrow e t eq_refl). reflexivity.
  - exact Hok.
  - exact Hthrow.
  - intros oc Hoc. apply Hok. apply (close_runs d oc (Some true) h Hoc).
Qed.

Lemma open_toggle_is_close_witness :
  trace (open inventoryToggle inventoryShownHost) =
    trace (close inventoryToggle (Some true) inventoryShownHost) /\
  open inventoryToggle inventoryShownHost =
    (Ok false,
     [webview_close ["inventory"] true;
      native_displayRadar true; native_displayHud true;
      invoke (UserCallback 1)]).
Proof.
  pose proof (open_toggle_is_close inventoryToggle inventoryShownHost
                eq_refl eq_refl) as [Htr [_ [_ Hwf]]].
  split.
  - exact Htr.
  - exact (Hwf (mkOnClose None None (Some true) None None None None None)
               eq_refl).
Defined.

(** ** The two close paths *)

(** C6. On a page descriptor (one carrying [options.onClose]): a manual
    close issues the hide call for the surface, once, with the computed
    [showOverlays] flag, and no direct overlay call; an automatic close
    (argument [false] or left out) never issues the hide call, and issues
    the direct overlay call, once, exactly when [showOverlays] is
    [true]. *)
Theorem close_overlay_paths (d : IPage) (oc : OnClose) (h : Host) :
  onCloseOf d = Some oc ->
  (filter is_webview_close (trace (close d (Some true) h)) =
     [webview_close [name d] (spec_default_true (showOverlays oc))] /\
   filter is_webview_showOverlays (trace (close d (Some true) h)) = []) /\
  (forall arg, arg = Some false \/ arg = None ->
     filter is_webview_close (trace (close d arg h)) = [] /\
     (spec_default_true (showOverlays oc) = true ->
      filter is_webview_showOverlays (trace (close d arg h)) =
        [webview_showOverlays true (Some false)]) /\
     (spec_default_true (showOverlays oc) = false ->
      filter is_webview_showOverlays (trace (close d arg h)) = [])).
Proof.
  intros Hoc. split.
  - rewrite (close_runs d oc (Some true) h Hoc).
    unfold trace, spec_close_trace. cbn [snd].
    rewrite !filter_app, restore_has_no_close, restore_has_no_showOverlays.
    split; reflexivity.
  - intros arg Harg.
    rewrite (close_runs d oc arg h Hoc).
    unfold trace, spec_close_trace. cbn [snd].
    rewrite !filter_app, restore_has_no_close, restore_has_no_showOverlays.
    unfold spec_close_overlays.
    destruct Harg as [-> | ->];
      (split; [|split; intros ->]);
      try reflexivity;
      destruct (spec_default_true (showOverlays oc)); reflexivity.
Qed.

Lemma close_overlay_paths_witness :
  (filter is_webview_close (trace (close inventory (Some true) idleHost)) =
     [webview_close ["inventory"] true] /\
   filter is_webview_showOverlays (trace (close inventory (Some true) idleHost))
     = []) /\
  filter is_webview_close (trace (close inventory None idleHost)) = [] /\
  filter is_webview_showOverlays (trace (close inventory None idleHost)) =
    [webview_showOverlays true (Some false)].
Proof.
  pose proof (close_overlay_paths inventory
                (mkOnClose None None (Some true) None None None None None)
                idleHost eq_refl) as [Hmanual Hauto].
  split; [exact Hmanual|].
  destruct (Hauto None (or_intror eq_refl)) as [Hnoclose [Hshow _]].
  split; [exact Hnoclose | exact (Hshow eq_refl)].
Defined.

(** ** Opening an open surface *)

(** C7. On a page descriptor without [keybind.useSameKeyToClose], [open]
    never asks whether the surface is open: called while it is open, with
    no blocking check holding, it issues the full list of open effects
    again, display call included, and returns [true], exactly as on a
    closed surface; two such calls leave twice the calls of one. *)
Theorem open_again_reapplies (d : IPage) (oo : OnOpen) (h : Host) :
  onOpenOf d = Some oo ->
  usesSameKeyToClose d = false ->
  isPageOpen h (name d) = true ->
  blocked h = false ->
  open d h = (Ok true, spec_open_trace d oo) /\
  In (webview_open [name d] (spec_default_true (hideOverlays oo)) (CloseBoundTo d))
     (trace (open d h)) /\
  open d h =
    open d (mkHost (fun _ => false)
              (isAnyMenuOpen h) (isConsoleOpen h) (isMenuOpen h)) /\
  (open d ;; open d)%page h =
    (Ok true, spec_open_trace d oo ++ spec_open_trace d oo) /\
  trace ((open d ;; open d)%page h) <> trace (open d h).
Proof.
  intros Hoo Hkey Hopen Hblk.
  assert (Hrun : forall h', usesSameKeyToClose d = false -> blocked h' = false ->
                   open d h' = (Ok true, spec_open_trace d oo)).
  { intros h' Hk Hb.
    rewrite (open_no_redirect d h'); [|unfold redirects; rewrite Hk; reflexivity].
    rewrite (open_checks_clear d h' Hb). apply open_effects_runs. exact Hoo. }
  pose proof (Hrun h Hkey Hblk) as Hh.
  assert (Htwice : (open d ;; open d)%page h =
                     (Ok true, spec_open_trace d oo ++ spec_open_trace d oo)).
  { apply (run_bind_ok (open d) (fun _ => open d) h true); exact Hh. }
  repeat split.
  - exact Hh.
  - rewrite Hh. unfold trace, spec_open_trace. cbn [snd].
    rewrite !in_app_iff. do 8 right. left. reflexivity.
  - rewrite Hh. symmetry. apply Hrun; [exact Hkey | exact Hblk].
  - exact Htwice.
  - rewrite Htwice, Hh. unfold trace. cbn [snd]. intros Heq.
    apply (f_equal (@List.length Call)) in Heq.
    rewrite length_app in Heq.
    assert (Hlen : List.length (spec_open_trace d oo) <> 0).
    { unfold spec_open_trace. rewrite !length_app. cbn [List.length]. lia. }
    lia.
Qed.

Lemma open_again_reapplies_witness :
  open inventory inventoryShownHost =
    (Ok true,
     [webview_focus; webview_showOverlays false None;
      native_displayRadar false; native_displayHud false;
      webview_open ["inventory"] true (CloseBoundTo inventory)]) /\
  open inventory inventoryShownHost = open inventory idleHost.
Proof.
  pose proof (open_again_reapplies inventory
                (mkOnOpen (Some true) None (Some true) None None None None None)
                inventoryShownHost eq_refl eq_refl eq_refl eq_refl)
    as [Hrun [_ [Hsame _]]].
  split; [exact Hrun | exact Hsame].
Defined.

(** ** Malformed descriptors *)

(** C8. When the same-key toggle does not apply and no blocking check
    holds, [open] on a descriptor without [options], or without
    [options.onOpen], throws a [TypeError] at its first read of the flags,
    before any call is issued; it neither returns [false] nor skips the
    read.  On a descriptor carrying [options.onOpen] the same call
    returns [true], and on a well-formed descriptor [open] throws in no
    host state. *)
Theorem open_malformed_throws (d : IPage) :
  (forall h,
     options d = None \/ (exists o, options d = Some o /\ onOpen o = None) ->
     redirects d h = false -> blocked h = false ->
     open d h = (Throw TypeError, [])) /\
  (forall h oo,
     onOpenOf d = Some oo -> redirects d h = false -> blocked h = false ->
     result (open d h) = Ok true) /\
  (wellFormed d = true ->
   forall h, exists b, result (open d h) = Ok b).
Proof.
  repeat split.
  - intros h Hmal Hred Hblk.
    rewrite (open_no_redirect d h Hred), (open_checks_clear d h Hblk).
    apply open_effects_missing. unfold onOpenOf.
    destruct Hmal as [-> | [o [-> Ho]]]; [reflexivity | exact Ho].
  - intros h oo Hoo Hred Hblk.
    rewrite (open_no_redirect d h Hred), (open_checks_clear d h Hblk),
      (open_effects_runs d oo h Hoo). reflexivity.
  - unfold wellFormed. intros Hwf h.
    destruct (onOpenOf d) as [oo|] eqn:Hoo; [|discriminate].
    destruct (onCloseOf d) as [oc|] eqn:Hoc; [|discriminate].
    destruct (redirects d h) eqn:Hred.
    + exists false. rewrite (open_redirect d h Hred).
      rewrite (run_bind_ok (close d (Some true)) (fun _ => ret false) h tt
                 _ (Ok false) [] (close_runs d oc (Some true) h Hoc) eq_refl).
      reflexivity.
    + rewrite (open_no_redirect d h Hred).
      destruct (blocked h) eqn:Hblk.
      * exists false. rewrite (open_checks_blocked d h Hblk). reflexivity.
      * exists true. rewrite (open_checks_clear d h Hblk),
          (open_effects_runs d oo h Hoo). reflexivity.
Qed.

Lemma open_malformed_throws_witness :
  open bare idleHost = (Throw TypeError, []) /\
  result (open inventory idleHost) = Ok true /\
  exists b, result (open inventoryToggle inventoryOpenHost) = Ok b.
Proof.
  split; [|split].
  - apply (proj1 (open_malformed_throws bare) idleHost);
      [left; reflexivity | reflexivity | reflexivity].
  - apply (proj1 (proj2 (open_malformed_throws inventory)) idleHost
             (mkOnOpen (Some true) None (Some true) None None None None None));
      reflexivity.
  - apply (proj2 (proj2 (open_malformed_throws inventoryToggle)) eq_refl
             inventoryOpenHost).
Defined.

End PageRuns.

(** ** Weather rotation *)

Section WeatherFacts.
Import Weather.

Variable getWeatherFromString : slot -> Z.

Lemma rotate_left_perm (ws : list slot) : Permutation (rotate_left ws) ws.
Proof.
  destruct ws as [|x rest]; [constructor|].
  cbn [rotate_left]. symmetry. apply Permutation_cons_append.
Qed.

Lemma shift_push_rotates (ws : list slot) :
  ws <> [] -> push (snd (shift ws)) (fst (shift ws)) = rotate_left ws.
Proof.
  destruct ws as [|x rest]; [congruence | reflexivity].
Qed.

(** What one run of the timer callback does to the array. *)
Lemma handleWeatherUpdate_weathers (all : list (option Player)) (s : State) :
  weathers s <> [] ->
  weathers (fst (handleWeatherUpdate getWeatherFromString all s)) =
    if enabled s
    then match filter isLoggedIn all with
         | [] => weathers s
         | _ :: _ => rotate_left (weathers s)
         end
    else weathers s.
Proof.
  intros Hne. unfold handleWeatherUpdate.
  destruct (enabled s); cbn [negb]; [|reflexivity].
  destruct (filter isLoggedIn all) as [|p ps]; [reflexivity|].
  cbn [List.length].
  replace (Z.of_nat (S (List.length ps)) <=? 0)%Z with false
    by (symmetry; apply Z.leb_gt; lia).
  rewrite <- (shift_push_rotates (weathers s) Hne).
  destruct (shift (weathers s)) as [x rest]. reflexivity.
Qed.

Lemma disable_weathers (s : State) :
  weathers (fst (disable s)) = weathers s.
Proof.
  unfold disable. cbn [interval]. destruct (interval s); reflexivity.
Qed.

Lemma perm_initial_nonempty (ws : list slot) :
  Permutation ws initial_weathers -> ws <> [].
Proof.
  intros Hp ->. apply Permutation_nil in Hp. discriminate Hp.
Qed.

(** Every slot of a permutation of the initial array holds a key. *)
Lemma perm_initial_keys (ws : list slot) :
  Permutation ws initial_weathers ->
  exists k rest, ws = Some k :: rest.
Proof.
  intros Hp. destruct ws as [|[k|] rest].
  - exfalso. exact (perm_initial_nonempty [] Hp eq_refl).
  - eauto.
  - exfalso.
    assert (Hin : In None initial_weathers).
    { apply (Permutation_in _ Hp). left. reflexivity. }
    unfold initial_weathers in Hin. apply in_map_iff in Hin.
    destruct Hin as [k [Hk _]]. discriminate Hk.
Qed.

Lemma reachable_perm (s : State) :
  reachable getWeatherFromString s -> Permutation (weathers s) initial_weathers.
Proof.
  induction 1 as [|op s Hs IH]; [reflexivity|].
  pose proof (perm_initial_nonempty _ IH) as Hne.
  destruct op; cbn [step]; try exact IH.
  - rewrite (handleWeatherUpdate_weathers all s Hne).
    destruct (enabled s); [|exact IH].
    destruct (filter isLoggedIn all); [exact IH|].
    rewrite rotate_left_perm. exact IH.
  - rewrite disable_weathers. exact IH.
Qed.

(** C9. In every reachable state of the weather module: a run of the
    rotation step leaves the array as it is when the system is disabled
    or no valid, fully spawned player is connected, and otherwise
    replaces it by its left rotation by one; the array has 11 elements
    and is a permutation of the initial array; and [getCurrentWeather]
    returns the first element, as a string when asked so and through
    [getWeatherFromString] otherwise. *)
Theorem weather_rotation_invariant (s : State) :
  reachable getWeatherFromString s ->
  (forall all,
     (enabled s = false \/ filter isLoggedIn all = [] ->
      weathers (fst (handleWeatherUpdate getWeatherFromString all s)) =
        weathers s) /\
     (enabled s = true -> filter isLoggedIn all <> [] ->
      weathers (fst (handleWeatherUpdate getWeatherFromString all s)) =
        rotate_left (weathers s))) /\
  List.length (weathers s) = 11 /\
  Permutation (weathers s) initial_weathers /\
  (exists k rest,
     weathers s = Some k :: rest /\
     getCurrentWeather getWeatherFromString (Some true) s = AsString (Some k) /\
     (forall a, a = None \/ a = Some false ->
        getCurrentWeather getWeatherFromString a s =
          AsNumber (getWeatherFromString (Some k)))).
Proof.
  intros Hreach.
  pose proof (reachable_perm s Hreach) as Hperm.
  pose proof (perm_initial_nonempty _ Hperm) as Hne.
  split; [|split; [|split]].
  - intros all. rewrite (handleWeatherUpdate_weathers all s Hne). split.
    + intros [-> | ->]; [reflexivity|].
      destruct (enabled s); reflexivity.
    + intros -> Hsome.
      destruct (filter isLoggedIn all); [congruence | reflexivity].
  - rewrite (Permutation_length Hperm). reflexivity.
  - exact Hperm.
  - destruct (perm_initial_keys _ Hperm) as [k [rest Hws]].
    exists k, rest. unfold getCurrentWeather. rewrite Hws. cbn [first].
    split; [reflexivity|]. split; [reflexivity|].
    intros a [-> | ->]; reflexivity.
Qed.

End WeatherFacts.

Lemma weather_rotation_invariant_witness :
  List.length
    (Weather.weathers
       (Weather.step Weather.sampleTable
          (Weather.timer_fires [Some Weather.alice]) Weather.initial)) = 11 /\
  Permutation
    (Weather.weathers
       (Weather.step Weather.sampleTable
          (Weather.timer_fires [Some Weather.alice]) Weather.initial))
    Weather.initial_weathers.
Proof.
  destruct (weather_rotation_invariant Weather.sampleTable
              (Weather.step Weather.sampleTable
                 (Weather.timer_fires [Some Weather.alice]) Weather.initial)
              (Weather.reach_step Weather.sampleTable
                 (Weather.timer_fires [Some Weather.alice]) Weather.initial
                 (Weather.reach_initial Weather.sampleTable)))
    as [_ [Hlen [Hperm _]]].
  split; [exact Hlen | exact Hperm].
Defined.

(** ** Vehicle doors *)

Section VehicleFacts.
Import Vehicle.
Local Open Scope Z_scope.

(** C10. For a door index from 0 to 5, [toggleDoor] sets the door's state
    to 7 when it was 0 and to 0 otherwise, leaves the other doors alone,
    and returns [true] exactly when the door was open before the call,
    that is exactly when it is closed after it: the returned boolean is
    the negation of the door's new open state. *)
Theorem toggleDoor_returns_old_state (vehicle : Vehicle) (door : Z) :
  0 <= door <= 5 ->
  let r := fst (toggleDoor vehicle door) in
  let vehicle' := snd (toggleDoor vehicle door) in
  (getDoorState vehicle door = 0 -> getDoorState vehicle' door = 7) /\
  (getDoorState vehicle door <> 0 -> getDoorState vehicle' door = 0) /\
  (forall d, d <> door -> getDoorState vehicle' d = getDoorState vehicle d) /\
  (r = true <-> getDoorState vehicle door <> 0) /\
  (r = true <-> getDoorState vehicle' door = 0) /\
  r = negb (isDoorOpen vehicle' door).
Proof.
  intros _. cbv zeta.
  unfold toggleDoor, isDoorOpen, setDoorState, getDoorState.
  cbn [fst snd doorStates]. rewrite Z.eqb_refl.
  destruct (Z.eqb_spec (doorStates vehicle door) 0) as [Hz | Hnz];
    cbn [Bool.eqb Z.eqb negb].
  - repeat split; try congruence; try discriminate.
    intros d Hd. destruct (Z.eqb_spec d door); [contradiction | reflexivity].
  - repeat split; try congruence; try discriminate.
    intros d Hd. destruct (Z.eqb_spec d door); [contradiction | reflexivity].
Qed.

End VehicleFacts.

Lemma toggleDoor_returns_old_state_witness :
  fst (Vehicle.toggleDoor Vehicle.sampleVehicle 4) = true /\
  Vehicle.getDoorState (snd (Vehicle.toggleDoor Vehicle.sampleVehicle 4)) 4 = 0%Z /\
  fst (Vehicle.toggleDoor Vehicle.sampleVehicle 0) = false /\
  Vehicle.getDoorState (snd (Vehicle.toggleDoor Vehicle.sampleVehicle 0)) 0 = 7%Z.
Proof.
  assert (H4 : (0 <= 4 <= 5)%Z) by lia.
  assert (H0 : (0 <= 0 <= 5)%Z) by lia.
  destruct (toggleDoor_returns_old_state Vehicle.sampleVehicle 4 H4)
    as [_ [Hopen [_ [Hret _]]]].
  destruct (toggleDoor_returns_old_state Vehicle.sampleVehicle 0 H0)
    as [Hclosed [_ [_ [Hret0 _]]]].
  split; [apply Hret; discriminate|].
  split; [apply Hopen; discriminate|].
  split; [|apply Hclosed; reflexivity].
  destruct (fst (Vehicle.toggleDoor Vehicle.sampleVehicle 0)) eqn:E;
    [|reflexivity].
  exfalso. apply (proj1 Hret0 eq_refl). reflexivity.
Defined.

(** * Further properties of the page controller *)

(** Filtering a list of guarded blocks, block by block. *)
Ltac filter_guarded :=
  rewrite ?filter_app, ?filter_ifc; cbn [filter]; rewrite ?ifc_nil; cbn [app].

Section PageMore.
Import Page PageSetup.
Local Open Scope page_scope.

Lemma restore_has_no_open oc :
  filter is_webview_open (spec_close_restore oc) = [].
Proof.
  unfold spec_close_restore. filter_guarded.
  cbn [is_webview_open]. rewrite ?ifc_nil. reflexivity.
Qed.

Lemma close_trace_has_no_open d oc manual :
  filter is_webview_open (spec_close_trace d oc manual) = [].
Proof.
  unfold spec_close_trace. rewrite !filter_app, restore_has_no_open.
  unfold spec_close_overlays.
  destruct manual, (spec_default_true (showOverlays oc)); reflexivity.
Qed.

Lemma spec_controls_no_invoke v : filter is_invoke (spec_controls v) = [].
Proof.
  unfold spec_controls. destruct v as [s|]; [|reflexivity].
  destruct (String.eqb s "all"); [reflexivity|].
  destruct (String.eqb s "camera"); reflexivity.
Qed.

Lemma open_trace_has_no_invoke d oo :
  filter is_invoke (spec_open_trace d oo) = [].
Proof.
  unfold spec_open_trace. filter_guarded.
  rewrite spec_controls_no_invoke.
  cbn [is_invoke]. rewrite ?ifc_nil. reflexivity.
Qed.

(** [open] in its toggle branch, by what the descriptor carries. *)
Lemma open_redirect_runs d h :
  redirects d h = true ->
  open d h =
    match onCloseOf d with
    | Some oc => (Ok false, spec_close_trace d oc true)
    | None => (Throw TypeError, [])
    end.
Proof.
  intros Hred. rewrite (open_redirect d h Hred).
  destruct (onCloseOf d) as [oc|] eqn:Hoc.
  - rewrite (run_bind_ok (close d (Some true)) (fun _ => ret false) h tt
               _ (Ok false) [] (close_runs d oc (Some true) h Hoc) eq_refl).
    rewrite app_nil_r. reflexivity.
  - apply run_bind_throw. apply close_missing. exact Hoc.
Qed.

(** [open] outside its toggle branch. *)
Lemma open_plain_runs d h :
  redirects d h = false ->
  open d h =
    if blocked h then (Ok false, [])
    else match onOpenOf d with
         | Some oo => (Ok true, spec_open_trace d oo)
         | None => (Throw TypeError, [])
         end.
Proof.
  intros Hred. rewrite (open_no_redirect d h Hred).
  destruct (blocked h) eqn:Hblk.
  - apply open_checks_blocked. exact Hblk.
  - rewrite (open_checks_clear d h Hblk).
    destruct (onOpenOf d) as [oo|] eqn:Hoo.
    + apply open_effects_runs. exact Hoo.
    + apply open_effects_missing. exact Hoo.
Qed.

Lemma close_cases d arg h :
  close d arg h =
    match onCloseOf d with
    | Some oc =>
        (Ok tt,
         spec_close_trace d oc (match arg with Some b => b | None => false end))
    | None => (Throw TypeError, [])
    end.
Proof.
  destruct (onCloseOf d) as [oc|] eqn:Hoc.
  - apply close_runs. exact Hoc.
  - apply close_missing. exact Hoc.
Qed.





(** X3. [close] asks the host nothing: whatever the host state, and so
    whether or not the surface is open, it issues the same calls and
    gives the same outcome. *)
Theorem close_ignores_host (d : IPage) (arg : option bool) (h1 h2 : Host) :
  close d arg h1 = close d arg h2.
Proof.
  rewrite !close_cases. reflexivity.
Qed.

Lemma open_trace_controls oo d :
  filter is_toggleGameControls (spec_open_trace d oo) =
    filter is_toggleGameControls (spec_controls (disableControls oo)) /\
  filter is_GameplayCamera_disable (spec_open_trace d oo) =
    filter is_GameplayCamera_disable (spec_controls (disableControls oo)).
Proof.
  unfold spec_open_trace. split; filter_guarded.
  - cbn [is_toggleGameControls]. rewrite ?ifc_nil, ?app_nil_r. reflexivity.
  - cbn [is_GameplayCamera_disable]. rewrite ?ifc_nil, ?app_nil_r. reflexivity.
Qed.

(** X4. In an [open] that goes through, [disableControls: 'all'] turns
    the game controls off once and leaves the camera alone, ['camera']
    disables the camera once and leaves the controls alone, and any other
    value, or none, does neither. *)
Theorem open_controls_dispatch (d : IPage) (oo : OnOpen) (h : Host) :
  onOpenOf d = Some oo -> redirects d h = false -> blocked h = false ->
  (disableControls oo = Some "all" ->
   filter is_toggleGameControls (trace (open d h)) = [alt_toggleGameControls false] /\
   filter is_GameplayCamera_disable (trace (open d h)) = []) /\
  (disableControls oo = Some "camera" ->
   filter is_toggleGameControls (trace (open d h)) = [] /\
   filter is_GameplayCamera_disable (trace (open d h)) = [GameplayCamera_disable]) /\
  (disableControls oo <> Some "all" -> disableControls oo <> Some "camera" ->
   filter is_toggleGameControls (trace (open d h)) = [] /\
   filter is_GameplayCamera_disable (trace (open d h)) = []).
Proof.
  intros Hoo Hred Hblk.
  rewrite (open_plain_runs d h Hred), Hblk, Hoo. unfold trace. cbn [snd].
  destruct (open_trace_controls oo d) as [-> ->].
  split; [|split].
  - intros ->. split; reflexivity.
  - intros ->. split; reflexivity.
  - intros Hall Hcam. unfold spec_controls.
    destruct (disableControls oo) as [s|]; [|split; reflexivity].
    destruct (String.eqb_spec s "all") as [-> | _]; [congruence|].
    destruct (String.eqb_spec s "camera") as [-> | _]; [congruence|].
    split; reflexivity.
Qed.

Lemma open_controls_dispatch_witness :
  filter is_toggleGameControls (trace (open cameraPage idleHost)) = [] /\
  filter is_GameplayCamera_disable (trace (open cameraPage idleHost)) =
    [GameplayCamera_disable].
Proof.
  apply (proj1 (proj2 (open_controls_dispatch cameraPage
           (mkOnOpen None None None None (Some "camera") None None None)
           idleHost eq_refl eq_refl eq_refl))).
  reflexivity.
Defined.

(** X5. Outside its toggle branch [open] never invokes a callback of
    the descriptor, and [close] never issues the display call; in its
    toggle branch [open] does not display either. *)
Theorem open_close_never_cross (d : IPage) (h : Host) :
  (redirects d h = false -> filter is_invoke (trace (open d h)) = []) /\
  (redirects d h = true -> filter is_webview_open (trace (open d h)) = []) /\
  (forall arg, filter is_webview_open (trace (close d arg h)) = []).
Proof.
  split; [|split].
  - intros Hred. rewrite (open_plain_runs d h Hred).
    destruct (blocked h); [reflexivity|].
    destruct (onOpenOf d) as [oo|]; [|reflexivity].
    apply open_trace_has_no_invoke.
  - intros Hred. rewrite (open_redirect_runs d h Hred).
    destruct (onCloseOf d) as [oc|]; [|reflexivity].
    apply close_trace_has_no_open.
  - intros arg. rewrite close_cases.
    destruct (onCloseOf d) as [oc|]; [|reflexivity].
    apply close_trace_has_no_open.
Qed.

Lemma open_close_never_cross_witness :
  filter is_invoke (trace (open inventory idleHost)) = [] /\
  filter is_webview_open (trace (open inventoryToggle inventoryShownHost)) = [].
Proof.
  split.
  - apply (proj1 (open_close_never_cross inventory idleHost)). reflexivity.
  - apply (proj1 (proj2 (open_close_never_cross inventoryToggle
                           inventoryShownHost))).
    reflexivity.
Defined.

(** X6. With every flag left out: [open] only issues the display call,
    hiding overlays; a manual [close] hides the surface, showing
    overlays, and runs the callback; an automatic [close] shows the
    overlays and runs the callback.  Overlays are thus touched even by a
    descriptor that sets nothing. *)
Theorem empty_flags_defaults (d : IPage) (h : Host) :
  (onOpenOf d = Some emptyOnOpen -> redirects d h = false -> blocked h = false ->
   open d h = (Ok true, [webview_open [name d] true (CloseBoundTo d)])) /\
  (onCloseOf d = Some emptyOnClose ->
   close d (Some true) h =
     (Ok tt, [webview_close [name d] true; invoke (cb_onClose (callbacks d))]) /\
   close d None h =
     (Ok tt, [webview_showOverlays true (Some false);
              invoke (cb_onClose (callbacks d))])).
Proof.
  split.
  - intros Hoo Hred Hblk.
    rewrite (open_plain_runs d h Hred), Hblk, Hoo. reflexivity.
  - intros Hoc. rewrite !close_cases, Hoc. split; reflexivity.
Qed.

Lemma empty_flags_defaults_witness :
  open plainPage idleHost =
    (Ok true, [webview_open ["plain"] true (CloseBoundTo plainPage)]) /\
  close plainPage None idleHost =
    (Ok tt, [webview_showOverlays true (Some false); invoke (UserCallback 3)]).
Proof.
  split.
  - apply (proj1 (empty_flags_defaults plainPage idleHost)); reflexivity.
  - apply (proj2 (empty_flags_defaults plainPage idleHost) eq_refl).
Defined.



End PageMore.

Section PageSetupFacts.
Import Page PageSetup.

Variable delayedKeyDownOf : Keybind -> option (option Z).

(** X8. The constructor registers the ready hook exactly once, as its
    last call, for every descriptor, missing [options] included.  It
    registers no hotkey without a keybind and exactly one with a keybind:
    the delayed binding when [delayedKeyDown.msToTrigger] is a number
    other than 0, the plain key-down binding otherwise, both bound to
    [open] of this page.  It exempts the page from the escape key only
    when [options.disableEscapeKey] is set. *)
Theorem constructor_registrations (page : IPage) :
  exists pre,
    constructor delayedKeyDownOf page =
      pre ++ [webview_ready (name page) (cb_onReady (callbacks page))] /\
    filter is_webview_ready pre = [] /\
    (keybind page = None -> filter is_hotkeys_add pre = []) /\
    (forall k, keybind page = Some k ->
       filter is_hotkeys_add pre =
         [hotkeys_add k
            match delayedKeyDownOf k with
            | Some (Some ms) =>
                if (ms =? 0)%Z then keyDown (OpenBoundTo page)
                else delayedKeyDown ms (OpenBoundTo page)
            | _ => keyDown (OpenBoundTo page)
            end]) /\
    (filter is_disableEscapeKey pre =
       match options page with
       | Some o => if truthy (disableEscapeKey o)
                   then [webview_disableEscapeKey (name page)] else []
       | None => []
       end).
Proof.
  unfold constructor.
  set (esc := match options page with
              | Some o => truthy (disableEscapeKey o)
              | None => false
              end).
  assert (Hesc : (if esc then [webview_disableEscapeKey (name page)] else []) =
                 match options page with
                 | Some o => if truthy (disableEscapeKey o)
                             then [webview_disableEscapeKey (name page)] else []
                 | None => []
                 end).
  { unfold esc. destruct (options page); reflexivity. }
  eexists. split; [rewrite app_assoc; reflexivity|].
  rewrite !filter_app.
  destruct (keybind page) as [k|].
  - assert (Hb : match truthyMs (delayedKeyDownOf k) with
                 | Some ms => [hotkeys_add k (delayedKeyDown ms (OpenBoundTo page))]
                 | None => [hotkeys_add k (keyDown (OpenBoundTo page))]
                 end =
                 [hotkeys_add k
                    match delayedKeyDownOf k with
                    | Some (Some ms) =>
                        if (ms =? 0)%Z then keyDown (OpenBoundTo page)
                        else delayedKeyDown ms (OpenBoundTo page)
                    | _ => keyDown (OpenBoundTo page)
                    end]).
    { unfold truthyMs. destruct (delayedKeyDownOf k) as [[ms|]|]; try reflexivity.
      destruct (ms =? 0)%Z; reflexivity. }
    rewrite Hb, <- Hesc. cbn [filter is_webview_ready is_hotkeys_add
                               is_disableEscapeKey app].
    repeat split.
    + destruct esc; reflexivity.
    + discriminate.
    + intros k' Hk. injection Hk as <-. destruct esc; reflexivity.
    + destruct esc; reflexivity.
  - rewrite <- Hesc. cbn [filter app].
    repeat split.
    + destruct esc; reflexivity.
    + destruct esc; reflexivity.
    + discriminate.
    + destruct esc; reflexivity.
Qed.

End PageSetupFacts.

Lemma constructor_registrations_witness :
  exists pre,
    PageSetup.constructor (fun _ => Some (Some 0%Z)) PageSetup.plainPage =
      pre ++ [PageSetup.webview_ready "plain" (Page.UserCallback 2)] /\
    filter PageSetup.is_hotkeys_add pre =
      [PageSetup.hotkeys_add (Page.mkKeybind 112 None)
         (PageSetup.keyDown (PageSetup.OpenBoundTo PageSetup.plainPage))].
Proof.
  destruct (constructor_registrations (fun _ => Some (Some 0%Z))
              PageSetup.plainPage) as [pre [Hrun [_ [_ [Hkey _]]]]].
  exists pre. split; [exact Hrun|].
  exact (Hkey (Page.mkKeybind 112 None) eq_refl).
Defined.

(** * Further properties of the weather system *)

Section WeatherMore.
Import Weather WeatherRuns.

Variable getWeatherFromString : slot -> Z.

Abbreviation handle := (handleWeatherUpdate getWeatherFromString).
Abbreviation runOps := (run getWeatherFromString).

Lemma handle_disabled all s :
  enabled s = false -> handle all s = (s, []).
Proof.
  intros He. unfold handleWeatherUpdate. rewrite He. reflexivity.
Qed.

Lemma handle_nobody all s :
  filter isLoggedIn all = [] -> fst (handle all s) = s /\ snd (handle all s) = [].
Proof.
  intros Hf. unfold handleWeatherUpdate. rewrite Hf.
  destruct (enabled s); split; reflexivity.
Qed.

(** A run of the timer callback that goes through. *)
Lemma handle_rotates all s x rest :
  enabled s = true -> filter isLoggedIn all <> [] -> weathers s = x :: rest ->
  handle all s =
    (mkState (rest ++ [x]) true (interval s),
     flat_map
       (fun o => match o with
                 | Some player =>
                     updatePlayer getWeatherFromString
                       (mkState (rest ++ [x]) true (interval s)) player
                 | None => []
                 end)
       (filter isLoggedIn all)).
Proof.
  intros He Hf Hw. unfold handleWeatherUpdate. rewrite He, Hw. cbn [negb shift].
  destruct (filter isLoggedIn all) as [|p ps]; [congruence|].
  replace (Z.of_nat (List.length (p :: ps)) <=? 0)%Z with false
    by (symmetry; apply Z.leb_gt; cbn [List.length]; lia).
  reflexivity.
Qed.

Lemma someoneLoggedIn_filter all :
  someoneLoggedIn all = true <-> filter isLoggedIn all <> [].
Proof.
  unfold someoneLoggedIn. induction all as [|x all IH]; cbn.
  - split; [discriminate | congruence].
  - destruct (isLoggedIn x); cbn.
    + split; [discriminate | reflexivity].
    + exact IH.
Qed.

Lemma step_keeps_disabled op s :
  enabled s = false ->
  enabled (step getWeatherFromString op s) = false /\
  weathers (step getWeatherFromString op s) = weathers s /\
  filter is_player_effect (effects_of getWeatherFromString op s) = [].
Proof.
  intros He. destruct op; cbn [step effects_of].
  - rewrite (handle_disabled all s He). repeat split; assumption.
  - unfold updatePlayer. rewrite He. repeat split; assumption.
  - unfold disable. cbn [interval enabled weathers].
    destruct (interval s); repeat split; reflexivity.
  - repeat split; assumption.
  - unfold updatePlayer. rewrite He. repeat split; assumption.
Qed.

(** X9. Turning the system off is final.  From a disabled state no
    sequence of timer runs, character selections and calls to the
    exported functions changes the array or turns the system back on, and
    no player is sent a message or a weather. *)
Theorem disabled_is_final (ops : list Operation) (s : State) :
  enabled s = false ->
  enabled (fst (runOps ops s)) = false /\
  weathers (fst (runOps ops s)) = weathers s /\
  filter is_player_effect (snd (runOps ops s)) = [].
Proof.
  revert s. induction ops as [|op ops IH]; intros s He.
  - repeat split; try reflexivity; exact He.
  - cbn [run].
    destruct (step_keeps_disabled op s He) as [He1 [Hw1 Hf1]].
    specialize (IH _ He1).
    destruct (runOps ops (step getWeatherFromString op s)) as [s2 es].
    cbn [fst snd] in *. destruct IH as [He2 [Hw2 Hf2]].
    repeat split.
    + exact He2.
    + rewrite Hw2. exact Hw1.
    + rewrite filter_app, Hf1, Hf2. reflexivity.
Qed.

Lemma step_keeps_interval op s :
  interval s = None ->
  interval (step getWeatherFromString op s) = None /\
  filter is_clearInterval (effects_of getWeatherFromString op s) = [].
Proof.
  intros Hi. destruct op; cbn [step effects_of].
  - unfold handleWeatherUpdate.
    destruct (negb (enabled s)); [split; [exact Hi | reflexivity]|].
    destruct (Z.of_nat (List.length (filter isLoggedIn all)) <=? 0)%Z;
      [split; [exact Hi | reflexivity]|].
    destruct (shift (weathers s)) as [x rest]. cbn [fst snd interval].
    split; [exact Hi|].
    unfold updatePlayer. cbn [enabled].
    induction (filter isLoggedIn all) as [|[p|] ps IHps]; cbn; try exact IHps;
      [reflexivity|].
    destruct (negb (enabled s)); cbn; exact IHps.
  - split; [exact Hi|]. unfold updatePlayer.
    destruct (negb (enabled s)); reflexivity.
  - unfold disable. cbn [interval]. rewrite Hi. split; reflexivity.
  - split; [exact Hi | reflexivity].
  - split; [exact Hi|]. unfold updatePlayer.
    destruct (negb (enabled s)); reflexivity.
Qed.

(** X10. The timer handle is never stored: [interval] is declared and
    nothing assigns it.  So, starting from a state where it is unset, as
    the initial one, it stays unset, and [disable] never clears the
    timer: no sequence of operations issues [alt.clearInterval]. *)
Theorem interval_never_cleared (ops : list Operation) (s : State) :
  interval s = None ->
  interval (fst (runOps ops s)) = None /\
  filter is_clearInterval (snd (runOps ops s)) = [].
Proof.
  revert s. induction ops as [|op ops IH]; intros s Hi.
  - split; [exact Hi | reflexivity].
  - cbn [run].
    destruct (step_keeps_interval op s Hi) as [Hi1 Hf1].
    specialize (IH _ Hi1).
    destruct (runOps ops (step getWeatherFromString op s)) as [s2 es].
    cbn [fst snd] in *. destruct IH as [Hi2 Hf2].
    split; [exact Hi2|]. rewrite filter_app, Hf1, Hf2. reflexivity.
Qed.

End WeatherMore.

Lemma disabled_is_final_witness :
  Weather.weathers
    (fst (WeatherRuns.run Weather.sampleTable
            [Weather.timer_fires [Some Weather.alice];
             Weather.character_selected Weather.alice]
            (Weather.mkState Weather.initial_weathers false None))) =
    Weather.initial_weathers.
Proof.
  apply (proj1 (proj2 (disabled_is_final Weather.sampleTable
           [Weather.timer_fires [Some Weather.alice];
            Weather.character_selected Weather.alice]
           (Weather.mkState Weather.initial_weathers false None) eq_refl))).
Defined.

Lemma interval_never_cleared_witness :
  filter WeatherRuns.is_clearInterval
    (snd (WeatherRuns.run Weather.sampleTable
            [Weather.timer_fires [Some Weather.alice]; Weather.call_disable]
            Weather.initial)) = [].
Proof.
  apply (proj2 (interval_never_cleared Weather.sampleTable
           [Weather.timer_fires [Some Weather.alice]; Weather.call_disable]
           Weather.initial eq_refl)).
Defined.

Section WeatherCycle.
Import Weather WeatherRuns.

Variable getWeatherFromString : slot -> Z.

Abbreviation handle' := (handleWeatherUpdate getWeatherFromString).
Abbreviation runOps' := (run getWeatherFromString).

Lemma run_cons_state op ops s :
  fst (runOps' (op :: ops) s) =
    fst (runOps' ops (step getWeatherFromString op s)).
Proof.
  cbn [run]. destruct (runOps' ops (step getWeatherFromString op s)).
  reflexivity.
Qed.

Lemma timer_runs_state alls s :
  Forall (fun all => someoneLoggedIn all = true) alls ->
  enabled s = true ->
  List.length alls <= List.length (weathers s) ->
  enabled (fst (runOps' (timer_runs alls) s)) = true /\
  weathers (fst (runOps' (timer_runs alls) s)) =
    skipn (List.length alls) (weathers s) ++
    firstn (List.length alls) (weathers s).
Proof.
  intros Hall. revert s.
  induction Hall as [|all alls Hlog _ IH]; intros s He Hlen.
  - cbn. rewrite app_nil_r. split; [exact He | reflexivity].
  - unfold timer_runs. cbn [map]. rewrite run_cons_state. cbn [step].
    destruct (weathers s) as [|x ws] eqn:Hw; [cbn in Hlen; lia|].
    apply someoneLoggedIn_filter in Hlog.
    rewrite (handle_rotates getWeatherFromString all s x ws He Hlog Hw).
    cbn [fst]. cbn [List.length] in Hlen.
    destruct (IH (mkState (ws ++ [x]) true (interval s)) eq_refl) as [He' Hw'].
    { cbn [weathers]. rewrite length_app. cbn. lia. }
    split; [exact He'|].
    fold (timer_runs alls). rewrite Hw'. cbn [weathers List.length skipn firstn].
    rewrite skipn_app, firstn_app.
    replace (List.length alls - List.length ws) with 0 by lia.
    cbn [skipn firstn]. rewrite app_nil_r, <- app_assoc. reflexivity.
Qed.

(** X11. Timer runs compose into rotations.  From an enabled state, [n]
    timer runs that each find a logged-in player, [n] at most the length
    of the array, move the first [n] elements to the back in order; as
    many runs as the array has elements give the array back, so the
    weather cycle repeats with that period. *)
Theorem timer_runs_cycle (alls : list (list (option Player))) (s : State) :
  enabled s = true ->
  Forall (fun all => someoneLoggedIn all = true) alls ->
  List.length alls <= List.length (weathers s) ->
  weathers (fst (runOps' (timer_runs alls) s)) =
    skipn (List.length alls) (weathers s) ++
    firstn (List.length alls) (weathers s) /\
  (List.length alls = List.length (weathers s) ->
   weathers (fst (runOps' (timer_runs alls) s)) = weathers s).
Proof.
  intros He Hall Hlen.
  destruct (timer_runs_state alls s Hall He Hlen) as [_ Hw].
  split; [exact Hw|].
  intros Heq. rewrite Hw, Heq, skipn_all, firstn_all. reflexivity.
Qed.

Lemma notify_each s' (l : list (option Player)) :
  enabled s' = true ->
  Forall (fun o => isLoggedIn o = true) l ->
  let es :=
    flat_map
      (fun o => match o with
                | Some player => updatePlayer getWeatherFromString s' player
                | None => []
                end) l in
  List.length es = 2 * List.length l /\
  (forall p w, In (player_setWeather p w) es ->
     In (Some p) l /\ w = getWeatherFromString (first (weathers s'))) /\
  (forall p msg, In (emit_message p msg) es ->
     In (Some p) l /\
     msg = ("Weather is now " ++ interpolate (first (weathers s')) ++ ".")%string) /\
  (forall p, In (Some p) l ->
     In (player_setWeather p (getWeatherFromString (first (weathers s')))) es).
Proof.
  intros He Hl. cbv zeta.
  induction Hl as [|o l Ho _ IH].
  - cbn. repeat split; intros; contradiction.
  - destruct o as [q|]; [|discriminate Ho].
    cbn [flat_map]. unfold updatePlayer at 1 3 5 7. rewrite He. cbn [negb].
    destruct IH as [IHlen [IHset [IHmsg IHall]]].
    split; [|split; [|split]].
    + cbn [app List.length]. rewrite IHlen. cbn [List.length]. lia.
    + intros p w [Hin | [Hin | Hin]].
      * discriminate Hin.
      * injection Hin as <- <-. split; [left|]; reflexivity.
      * destruct (IHset p w Hin) as [H1 H2]. split; [right|]; assumption.
    + intros p msg [Hin | [Hin | Hin]].
      * injection Hin as <- <-. split; [left|]; reflexivity.
      * discriminate Hin.
      * destruct (IHmsg p msg Hin) as [H1 H2]. split; [right|]; assumption.
    + intros p [Hin | Hin].
      * injection Hin as <-. right. left. reflexivity.
      * right. right. apply IHall. exact Hin.
Qed.

(** X12. Who is told what by a timer run.  In an enabled state the run
    emits two effects for each entry of the list that is a valid, fully
    spawned player and none for any other entry.  Every weather sent goes
    to such a player and is what [getCurrentWeather] returns after the
    run; every message goes to such a player and names the new first
    weather; and every such player is sent a weather. *)
Theorem timer_run_notifies (all : list (option Player)) (s : State) :
  enabled s = true ->
  List.length (snd (handle' all s)) = 2 * List.length (filter isLoggedIn all) /\
  (forall p w, In (player_setWeather p w) (snd (handle' all s)) ->
     In (Some p) all /\ isLoggedIn (Some p) = true /\
     getCurrentWeather getWeatherFromString None (fst (handle' all s))
       = AsNumber w) /\
  (forall p msg, In (emit_message p msg) (snd (handle' all s)) ->
     In (Some p) all /\ isLoggedIn (Some p) = true /\
     getCurrentWeather getWeatherFromString (Some true) (fst (handle' all s))
       = AsString (first (weathers (fst (handle' all s)))) /\
     msg = ("Weather is now "
              ++ interpolate (first (weathers (fst (handle' all s)))) ++ ".")%string) /\
  (forall p, In (Some p) all -> isLoggedIn (Some p) = true ->
     exists w, In (player_setWeather p w) (snd (handle' all s))).
Proof.
  intros He.
  assert (Hfil : Forall (fun o => isLoggedIn o = true) (filter isLoggedIn all)).
  { apply Forall_forall. intros o Ho. apply filter_In in Ho. apply Ho. }
  unfold handleWeatherUpdate. rewrite He. cbn [negb].
  destruct (Z.of_nat (List.length (filter isLoggedIn all)) <=? 0)%Z eqn:Hz.
  - apply Z.leb_le in Hz.
    destruct (filter isLoggedIn all) as [|o l] eqn:Hf; [|cbn in Hz; lia].
    cbn [fst snd List.length]. split; [reflexivity|].
    split; [intros p w []|]. split; [intros p msg []|].
    intros p Hin Hlog. exfalso.
    assert (Hin' : In (Some p) (filter isLoggedIn all))
      by (apply filter_In; split; assumption).
    rewrite Hf in Hin'. exact Hin'.
  - destruct (shift (weathers s)) as [x rest]. lazy beta iota zeta.
    cbn [fst snd].
    set (s' := mkState (push rest x) true (interval s)).
    assert (He' : enabled s' = true) by reflexivity.
    destruct (notify_each s' (filter isLoggedIn all) He' Hfil)
      as [Hlen [Hset [Hmsg Hevery]]].
    split; [exact Hlen|]. split; [|split].
    + intros p w Hin. destruct (Hset p w Hin) as [Hp ->].
      apply filter_In in Hp. destruct Hp as [Hp1 Hp2].
      repeat split; assumption.
    + intros p msg Hin. destruct (Hmsg p msg Hin) as [Hp ->].
      apply filter_In in Hp. destruct Hp as [Hp1 Hp2].
      repeat split; assumption.
    + intros p Hin Hlog. eexists. apply Hevery.
      apply filter_In. split; assumption.
Qed.

End WeatherCycle.

Lemma timer_runs_cycle_witness :
  Weather.weathers
    (fst (WeatherRuns.run Weather.sampleTable
            (WeatherRuns.timer_runs (repeat [Some Weather.alice] 11))
            Weather.initial)) = Weather.initial_weathers.
Proof.
  assert (Hall : Forall (fun all => WeatherRuns.someoneLoggedIn all = true)
                   (repeat [Some Weather.alice] 11)).
  { repeat constructor. }
  assert (Hlen : List.length (repeat [Some Weather.alice] 11) <=
                 List.length (Weather.weathers Weather.initial)).
  { cbn. repeat constructor. }
  apply (proj2 (timer_runs_cycle Weather.sampleTable
                  (repeat [Some Weather.alice] 11) Weather.initial
                  eq_refl Hall Hlen)).
  reflexivity.
Defined.

Lemma timer_run_notifies_witness :
  List.length
    (snd (Weather.handleWeatherUpdate Weather.sampleTable
            [Some Weather.alice; None; Some WeatherRuns.bob;
             Some WeatherRuns.carol]
            Weather.initial)) = 2.
Proof.
  apply (proj1 (timer_run_notifies Weather.sampleTable
                  [Some Weather.alice; None; Some WeatherRuns.bob;
                   Some WeatherRuns.carol]
                  Weather.initial eq_refl)).
Defined.

(** * Further properties of the vehicle helpers *)

Section DoorsMore.
Import Vehicle VehicleOps.
Local Open Scope Z_scope.

Lemma toggleDoor_state (v : Vehicle) (door d : Z) :
  getDoorState (snd (toggleDoor v door)) d =
    if d =? door then (if getDoorState v door =? 0 then 7 else 0)
    else getDoorState v d.
Proof.
  unfold toggleDoor, setDoorState, getDoorState. cbn [snd doorStates].
  destruct (d =? door); [|reflexivity].
  destruct (doorStates v door =? 0); reflexivity.
Qed.

Lemma toggleDoor_result (v : Vehicle) (door : Z) :
  fst (toggleDoor v door) = negb (getDoorState v door =? 0).
Proof.
  unfold toggleDoor, getDoorState. cbn [fst].
  destruct (doorStates v door =? 0); reflexivity.
Qed.

(** X13. Repeated toggles of one door.  After a toggle the door is in
    state 0 or 7, whatever it was; the next toggle returns the opposite
    boolean; three toggles leave every door as one toggle does; and two
    toggles give the door its state back exactly when that state was 0
    or 7, so a partly open door (any other state) is not restored. *)
Theorem toggleDoor_repeated (v : Vehicle) (door : Z) :
  (getDoorState (toggleDoorTimes 1 v door) door = 0 \/
   getDoorState (toggleDoorTimes 1 v door) door = 7) /\
  fst (toggleDoor (snd (toggleDoor v door)) door) = negb (fst (toggleDoor v door)) /\
  (forall d, getDoorState (toggleDoorTimes 3 v door) d =
             getDoorState (toggleDoorTimes 1 v door) d) /\
  (getDoorState (toggleDoorTimes 2 v door) door = getDoorState v door <->
   getDoorState v door = 0 \/ getDoorState v door = 7).
Proof.
  cbn [toggleDoorTimes].
  split; [|split; [|split]].
  - rewrite toggleDoor_state, Z.eqb_refl.
    destruct (getDoorState v door =? 0); [right | left]; reflexivity.
  - rewrite !toggleDoor_result, toggleDoor_state, Z.eqb_refl.
    destruct (getDoorState v door =? 0); reflexivity.
  - intros d. rewrite !toggleDoor_state.
    destruct (d =? door) eqn:Hd; [|reflexivity].
    rewrite Z.eqb_refl.
    destruct (getDoorState v door =? 0); reflexivity.
  - rewrite !toggleDoor_state, Z.eqb_refl.
    destruct (Z.eqb_spec (getDoorState v door) 0) as [Hz | Hnz]; cbn.
    + split; [intros _; left; exact Hz | intros _; symmetry; exact Hz].
    + split; [intros H; right; symmetry; exact H|].
      intros [H | H]; [contradiction | symmetry; exact H].
Qed.

(** X14. Toggles of two different doors do not interfere: the boolean
    returned for one door does not depend on whether the other was
    toggled first, and either order leaves every door in the same
    state. *)
Theorem toggleDoor_doors_independent (v : Vehicle) (door1 door2 : Z) :
  door1 <> door2 ->
  fst (toggleDoor (snd (toggleDoor v door1)) door2) = fst (toggleDoor v door2) /\
  (forall d,
     getDoorState (snd (toggleDoor (snd (toggleDoor v door1)) door2)) d =
     getDoorState (snd (toggleDoor (snd (toggleDoor v door2)) door1)) d).
Proof.
  intros Hne.
  assert (H21 : (door2 =? door1) = false) by (apply Z.eqb_neq; congruence).
  assert (H12 : (door1 =? door2) = false) by (apply Z.eqb_neq; congruence).
  split.
  - rewrite !toggleDoor_result, toggleDoor_state, H21. reflexivity.
  - intros d. rewrite !toggleDoor_state, H21, H12.
    destruct (Z.eqb_spec d door2) as [-> | _].
    + rewrite H21. reflexivity.
    + reflexivity.
Qed.

End DoorsMore.

Lemma toggleDoor_repeated_witness :
  Vehicle.getDoorState
    (VehicleOps.toggleDoorTimes 2 Vehicle.sampleVehicle 4) 4 = 7%Z.
Proof.
  apply (proj2 (proj2 (proj2 (proj2
           (toggleDoor_repeated Vehicle.sampleVehicle 4))))).
  right. reflexivity.
Defined.

Lemma toggleDoor_doors_independent_witness :
  fst (Vehicle.toggleDoor (snd (Vehicle.toggleDoor Vehicle.sampleVehicle 0)) 4)
    = fst (Vehicle.toggleDoor Vehicle.sampleVehicle 4).
Proof.
  apply (proj1 (toggleDoor_doors_independent Vehicle.sampleVehicle 0 4
                  ltac:(discriminate))).
Defined.

Section LocksMore.
Import VehicleOps.
Local Open Scope Z_scope.

Variable LOCKED : Z.
Variable UNLOCKED : Z.

(** X15. [toggleLock], for distinct [LOCKED] and [UNLOCKED].  It returns
    [true] exactly when the vehicle was not locked, and that is what
    [isLocked] says afterwards.  The new lock state is always [LOCKED] or
    [UNLOCKED]: any other state (kidnap mode, lock-out) counts as
    unlocked and becomes [LOCKED], so two toggles restore the lock state
    exactly when it was one of the two.  Nothing but the lock state
    changes. *)
Theorem toggleLock_flips (v : VehicleObj) :
  LOCKED <> UNLOCKED ->
  fst (toggleLock LOCKED UNLOCKED v) = negb (isLocked LOCKED v) /\
  isLocked LOCKED (snd (toggleLock LOCKED UNLOCKED v)) =
    fst (toggleLock LOCKED UNLOCKED v) /\
  (lockState v <> LOCKED ->
   lockState (snd (toggleLock LOCKED UNLOCKED v)) = LOCKED) /\
  (lockState v = LOCKED ->
   lockState (snd (toggleLock LOCKED UNLOCKED v)) = UNLOCKED) /\
  (lockState
     (snd (toggleLock LOCKED UNLOCKED (snd (toggleLock LOCKED UNLOCKED v))))
     = lockState v <->
   lockState v = LOCKED \/ lockState v = UNLOCKED) /\
  set_lockState (snd (toggleLock LOCKED UNLOCKED v)) (lockState v) = v.
Proof.
  intros Hne.
  assert (Hul : (UNLOCKED =? LOCKED) = false) by (apply Z.eqb_neq; congruence).
  unfold toggleLock, isLocked, set_lockState. cbn [fst snd lockState].
  destruct (Z.eqb_spec (lockState v) LOCKED) as [Hl | Hnl];
    lazy iota; rewrite ?Hul, ?Z.eqb_refl; lazy iota; rewrite ?Z.eqb_refl.
  - repeat split; try congruence.
    + intros _. left. exact Hl.
    + destruct v; cbn in *; congruence.
  - repeat split; try congruence.
    + intros H. right. symmetry. exact H.
    + intros [H | H]; [contradiction | symmetry; exact H].
    + destruct v; cbn in *; reflexivity.
Qed.

End LocksMore.

Lemma toggleLock_flips_witness :
  fst (VehicleOps.toggleLock 2 1 VehicleOps.drivenCar) = true /\
  VehicleOps.lockState (snd (VehicleOps.toggleLock 2 1 VehicleOps.drivenCar))
    = 2%Z.
Proof.
  assert (Hne : (2 <> 1)%Z) by discriminate.
  destruct (toggleLock_flips 2 1 VehicleOps.drivenCar Hne)
    as [Hret [_ [Hlock _]]].
  split; [exact Hret | apply Hlock; discriminate].
Defined.

Section EngineMore.
Import VehicleOps.

(** X16. [toggleEngine] only flips the engine of a vehicle without a
    driver; it then returns the new state, emits nothing, and a second
    call restores the vehicle.  With a driver it leaves the vehicle as it
    is, sends the driver the negated state and returns the state the
    engine had, so a second call sends and returns the same again. *)
Theorem toggleEngine_by_driver (v : VehicleObj) :
  (driver v = None ->
   toggleEngine v = (negb (engineOn v), set_engineOn v (negb (engineOn v)), []) /\
   snd (fst (toggleEngine (snd (fst (toggleEngine v))))) = v) /\
  (forall p, driver v = Some p ->
   toggleEngine v =
     (engineOn v, v, [driver_emit_VEHICLE_ENGINE p (negb (engineOn v))]) /\
   toggleEngine (snd (fst (toggleEngine v))) = toggleEngine v).
Proof.
  split.
  - intros Hd. unfold toggleEngine at 2 3. rewrite Hd. cbn [fst snd].
    split.
    + unfold toggleEngine. rewrite Hd. reflexivity.
    + unfold toggleEngine, set_engineOn. cbn [driver]. rewrite Hd.
      cbn [fst snd engineOn valid lockState driver bodyHealth engineHealth
             lightState dirtLevel pos rot].
      rewrite negb_involutive. destruct v; cbn in *. rewrite Hd. reflexivity.
  - intros p Hd. unfold toggleEngine at 1 3 4. rewrite Hd. cbn [fst snd].
    split; [reflexivity|]. unfold toggleEngine. rewrite Hd. reflexivity.
Qed.

End EngineMore.

Lemma toggleEngine_by_driver_witness :
  snd (fst (VehicleOps.toggleEngine
              (snd (fst (VehicleOps.toggleEngine VehicleOps.parkedCar)))))
    = VehicleOps.parkedCar /\
  VehicleOps.toggleEngine VehicleOps.drivenCar =
    (true, VehicleOps.drivenCar,
     [VehicleOps.driver_emit_VEHICLE_ENGINE 7 false]).
Proof.
  split.
  - apply (proj1 (toggleEngine_by_driver VehicleOps.parkedCar) eq_refl).
  - apply (proj2 (toggleEngine_by_driver VehicleOps.drivenCar) 7%nat eq_refl).
Defined.

Section UpdateMore.
Import VehicleOps.

Variable document_vehicle_get : VehicleObj -> option Document.

Lemma writeState_keys (v : VehicleObj) (base : Obj) :
  writeState v base "bodyHealth" = Some (JNum (bodyHealth v)) /\
  writeState v base "engineHealth" = Some (JNum (engineHealth v)) /\
  writeState v base "engineOn" = Some (JBool (engineOn v)) /\
  writeState v base "lockState" = Some (JNum (lockState v)) /\
  writeState v base "lightState" = Some (JNum (lightState v)) /\
  writeState v base "dirtLevel" = Some (JNum (dirtLevel v)).
Proof.
  repeat split.
Qed.

Lemma writeState_other (v : VehicleObj) (base : Obj) (k : string) :
  ~ In k stateKeys -> writeState v base k = base k.
Proof.
  intros Hk. unfold writeState, setKey.
  repeat match goal with
  | |- context [String.eqb k ?lit] =>
      destruct (String.eqb_spec k lit) as [-> | _];
      [exfalso; apply Hk; unfold stateKeys; cbn; tauto|]
  end.
  reflexivity.
Qed.

(** X17. [update] does nothing for a null vehicle, an invalid one, or
    one without a document.  Otherwise it issues a single [setBulk] with
    the vehicle's position and rotation and a state whose six vehicle
    keys hold the vehicle's current values, with or without an earlier
    state; every other key of an earlier state is carried over
    unchanged, and the document is left holding that same state. *)
Theorem update_saves_vehicle_state :
  update document_vehicle_get None = (None, []) /\
  (forall v, valid v = false \/ document_vehicle_get v = None ->
     update document_vehicle_get (Some v) = (None, [])) /\
  (forall v data,
     valid v = true -> document_vehicle_get v = Some data ->
     exists st,
       update document_vehicle_get (Some v) =
         (Some (mkDocument (doc_id data) (Some st)),
          [document_setBulk v (pos v) (rot v) st]) /\
       st "bodyHealth" = Some (JNum (bodyHealth v)) /\
       st "engineHealth" = Some (JNum (engineHealth v)) /\
       st "engineOn" = Some (JBool (engineOn v)) /\
       st "lockState" = Some (JNum (lockState v)) /\
       st "lightState" = Some (JNum (lightState v)) /\
       st "dirtLevel" = Some (JNum (dirtLevel v)) /\
       (forall k, ~ In k stateKeys ->
          st k = match state data with
                 | Some old => old k
                 | None => None
                 end)).
Proof.
  split; [reflexivity|]. split.
  - intros v [Hinv | Hnodoc]; unfold update.
    + rewrite Hinv. reflexivity.
    + destruct (valid v); [|reflexivity]. cbn [negb]. rewrite Hnodoc.
      reflexivity.
  - intros v data Hval Hdoc. unfold update. rewrite Hval, Hdoc. cbn [negb].
    eexists. split; [reflexivity|].
    destruct (state data) as [old|].
    + pose proof (writeState_keys v old) as [H1 [H2 [H3 [H4 [H5 H6]]]]].
      repeat split; try assumption.
      intros k Hk. apply writeState_other. exact Hk.
    + pose proof (writeState_keys v emptyObj) as [H1 [H2 [H3 [H4 [H5 H6]]]]].
      repeat split; try assumption.
      intros k Hk. apply (writeState_other v emptyObj k Hk).
Qed.

End UpdateMore.

Lemma update_saves_vehicle_state_witness :
  exists st,
    VehicleOps.update (fun _ => Some VehicleOps.ownedDoc)
      (Some VehicleOps.parkedCar) =
      (Some (VehicleOps.mkDocument 1 (Some st)),
       [VehicleOps.document_setBulk VehicleOps.parkedCar
          VehicleOps.origin VehicleOps.origin st]) /\
    st "lockState" = Some (VehicleOps.JNum 1) /\
    st "fuel" = Some (VehicleOps.JNum 42).
Proof.
  destruct (proj2 (proj2 (update_saves_vehicle_state
                            (fun _ => Some VehicleOps.ownedDoc)))
              VehicleOps.parkedCar VehicleOps.ownedDoc eq_refl eq_refl)
    as [st [Hrun [_ [_ [_ [Hlock [_ [_ Hother]]]]]]]].
  exists st. split; [exact Hrun|]. split; [exact Hlock|].
  rewrite (Hother "fuel"); [reflexivity|].
  cbn. intros [H | [H | [H | [H | [H | [H | []]]]]]]; discriminate H.
Defined.

(** * Properties of clothing crafting *)

Section ClothingMore.
Import ClothingCrafting.
Local Open Scope Z_scope.

Variable ClothingComponent : Type.

Lemma strictNeq_false (a b : option Z) : strictNeq a b = false <-> a = b.
Proof.
  destruct a as [x|], b as [y|]; cbn; try (split; congruence).
  destruct (Z.eqb_spec x y); cbn; split; congruence.
Qed.

(** X18. [combineData] gives a result exactly when the two items have
    the same [sex], so in either order or in neither; otherwise it
    returns [undefined]. *)
Theorem combineData_defined_iff (item1 item2 : StoredItem ClothingComponent) :
  (combineData item1 item2 = None <-> sex (data item1) <> sex (data item2)) /\
  (combineData item1 item2 = None <-> combineData item2 item1 = None).
Proof.
  assert (H : forall a b : StoredItem ClothingComponent,
            combineData a b = None <-> sex (data a) <> sex (data b)).
  { intros a b. unfold combineData.
    destruct (strictNeq (sex (data a)) (sex (data b))) eqn:E.
    - split; [|reflexivity]. intros _ Heq.
      apply strictNeq_false in Heq. congruence.
    - apply strictNeq_false in E. split; [discriminate | congruence]. }
  split; [apply H|]. rewrite !H. split; congruence.
Qed.

Lemma combineData_some (item1 item2 : StoredItem ClothingComponent)
    (r : ClothingInfo ClothingComponent) :
  combineData item1 item2 = Some r ->
  sex (data item1) = sex (data item2) /\
  r = mkClothingInfo (sex (data item1))
        (components (data item1) ++ components (data item2))%list.
Proof.
  unfold combineData.
  destruct (strictNeq (sex (data item1)) (sex (data item2))) eqn:E;
    [discriminate|].
  apply strictNeq_false in E. intros Hr. injection Hr as <-.
  split; [exact E | reflexivity].
Qed.

(** X19. When [combineData] gives a result, its [sex] is the one both
    items share and its components are those of the first item followed
    by those of the second, none lost and none added. *)
Theorem combineData_concatenates (item1 item2 : StoredItem ClothingComponent)
    (r : ClothingInfo ClothingComponent) :
  combineData item1 item2 = Some r ->
  sex r = sex (data item1) /\
  sex r = sex (data item2) /\
  components r = (components (data item1) ++ components (data item2))%list /\
  List.length (components r) =
    (List.length (components (data item1)) +
     List.length (components (data item2)))%nat.
Proof.
  intros Hr. destruct (combineData_some item1 item2 r Hr) as [E ->].
  cbn [sex components]. rewrite length_app. repeat split. exact E.
Qed.

(** X20. Combining is associative on the data: if an item carries the
    result of combining [a] with [b] and another the result of combining
    [b] with [c], then combining the first with [c] and [a] with the
    second give the same outcome. *)
Theorem combineData_associative (a b c ab bc : StoredItem ClothingComponent) :
  combineData a b = Some (data ab) ->
  combineData b c = Some (data bc) ->
  combineData ab c = combineData a bc.
Proof.
  intros Hab Hbc.
  destruct (combineData_some a b (data ab) Hab) as [Hsab Hdab].
  destruct (combineData_some b c (data bc) Hbc) as [Hsbc Hdbc].
  assert (Hc : sex (data c) = sex (data a)) by congruence.
  assert (Hf : strictNeq (sex (data a)) (sex (data a)) = false)
    by (apply strictNeq_false; reflexivity).
  unfold combineData. rewrite Hdab, Hdbc. cbn [sex components app].
  rewrite <- Hsab, Hc, Hf, app_assoc. reflexivity.
Qed.

End ClothingMore.

Lemma combineData_concatenates_witness :
  ClothingCrafting.components
    (ClothingCrafting.mkClothingInfo (Some 0%Z) [11; 12; 4]) =
  ClothingCrafting.components (ClothingCrafting.data ClothingCrafting.shirt) ++
  ClothingCrafting.components (ClothingCrafting.data ClothingCrafting.pants).
Proof.
  apply (proj1 (proj2 (proj2 (combineData_concatenates nat
           ClothingCrafting.shirt ClothingCrafting.pants
           (ClothingCrafting.mkClothingInfo (Some 0%Z) [11; 12; 4])
           eq_refl)))).
Defined.

Lemma combineData_defined_iff_witness :
  ClothingCrafting.combineData ClothingCrafting.dress ClothingCrafting.shirt
    = None.
Proof.
  apply (proj2 (combineData_defined_iff nat
                  ClothingCrafting.shirt ClothingCrafting.dress)).
  reflexivity.
Defined.

Lemma combineData_associative_witness :
  ClothingCrafting.combineData
    (ClothingCrafting.mkStoredItem "clothing" 1 0
       (ClothingCrafting.mkClothingInfo (Some 0%Z) [11; 12; 4]))
    ClothingCrafting.shirt =
  ClothingCrafting.combineData ClothingCrafting.shirt
    (ClothingCrafting.mkStoredItem "clothing" 1 0
       (ClothingCrafting.mkClothingInfo (Some 0%Z) [4; 11; 12])).
Proof.
  apply (combineData_associative nat
           ClothingCrafting.shirt ClothingCrafting.pants ClothingCrafting.shirt
           (ClothingCrafting.mkStoredItem "clothing" 1 0
              (ClothingCrafting.mkClothingInfo (Some 0%Z) [11; 12; 4]))
           (ClothingCrafting.mkStoredItem "clothing" 1 0
              (ClothingCrafting.mkClothingInfo (Some 0%Z) [4; 11; 12])));
    reflexivity.
Defined.

Section RecipeMore.
Import ClothingCrafting.

Lemma run_disabled_registers_nothing (ops : list Operation) :
  filter is_recipe_add (snd (run ops false)) = [].
Proof.
  induction ops as [|[|] ops IH]; [reflexivity| |].
  - cbn [run]. destruct (run ops false) as [e es]. exact IH.
  - cbn [run disable]. destruct (run ops false) as [e es]. exact IH.
Qed.

(** X21. The recipe is registered by [init] only while the system is
    enabled, and [disable] only stops later registrations: over any
    sequence of [init] and [disable] calls on an enabled system, the
    recipes registered are as many as the [init] calls before the first
    [disable], and on a disabled system none is. *)
Theorem recipes_registered (ops : list Operation) :
  List.length (filter is_recipe_add (snd (run ops true))) =
    initsBeforeDisable ops /\
  filter is_recipe_add (snd (run ops false)) = [].
Proof.
  split; [|apply run_disabled_registers_nothing].
  induction ops as [|[|] ops IH]; [reflexivity| |].
  - cbn [run initsBeforeDisable]. destruct (run ops true) as [e es].
    cbn [snd] in *. cbn. rewrite IH. reflexivity.
  - cbn [run disable initsBeforeDisable].
    pose proof (run_disabled_registers_nothing ops) as Hd.
    destruct (run ops false) as [e es]. cbn [snd] in *. cbn.
    rewrite Hd. reflexivity.
Qed.

End RecipeMore.
